(** * viewing_bot.py: the booking engine of the viewing-room Slack bot

    A shallow embedding of the parts of [viewing_bot.py] that read and
    write the [bookings] table, and of the projection that feeds the
    viewing screen, followed by the properties proved about them.

    Conventions of the embedding.
    - Python integers and SQLite INTEGER columns are [Z] (timestamps are
      epoch seconds, far from the 64-bit bound of SQLite).
    - A row of [bookings] is the record [booking], its fields in column
      order, as the tuples [cursor.fetchone()] returns.
    - The table is the list of its rows in rowid order, the order in which
      SQLite scans a table that has no index; [fetchone] takes the head of
      a result set.
    - The values a handler reads from the submitted view
      ([int(view[...]["value"])]) are arguments of the handler, already
      parsed.
    - The wall clock ([time.time()], [datetime.now()]) is an argument.
    - [json.dumps] and the time-zone rendering of timestamps are not
      modelled: the viewer document is the dictionary before
      serialisation, and the renderer of a time range is a parameter. *)

From Stdlib Require Import ZArith List String Bool Lia.
From Stdlib Require Import Sorting.Sorted Sorting.Permutation.
From Stdlib Require Import DecimalString.
From Stdlib Require DecimalZ DecimalPos.
Import ListNotations.

Local Open Scope string_scope.
Local Open Scope Z_scope.
Local Open Scope list_scope.

(** ** Data model *)

(** A row of
    [CREATE TABLE bookings (id INTEGER PRIMARY KEY, start_time INTEGER,
    end_time INTEGER, description TEXT, user_id TEXT)]. *)
Record booking : Type := mkBooking {
  id : Z;
  start_time : Z;
  end_time : Z;
  description : string;
  user_id : string
}.

(** The [bookings] table: its rows in rowid order. *)
Definition database : Type := list booking.

(** The dictionary built by [sanitize_booking_input] and read by
    [add_booking]. *)
Module Info.
Record t : Type := mk {
  start_time : Z;
  duration : Z;
  end_time : Z;
  description : string;
  user_id : string
}.
End Info.

(** [OverlappingBookingError(message)]. *)
Inductive exception : Type :=
| OverlappingBookingError (message : string).

(** How a call that may raise ends. *)
Inductive outcome : Type :=
| Returned
| Raised (e : exception).

(** What a view handler passes to [ack]: nothing, or
    [response_action="errors"] with one entry [{block: message}]. *)
Inductive ack_response : Type :=
| Ack
| AckErrors (block : string) (message : string).

(** A call of [client.chat_postMessage(channel=..., text=...)]. *)
Record chat_message : Type := mkMessage {
  channel : string;
  text : string
}.

(** What a view handler did: its acknowledgement, the messages it posted,
    and the table it leaves behind. *)
Record handled : Type := mkHandled {
  response : ack_response;
  posted : list chat_message;
  store : database
}.

(** An entry of the viewer document: [{"time": ..., "description": ...}]. *)
Record view_entry : Type := mkEntry {
  time : string;
  entry_description : string
}.

(** The dictionary [booking_information] of [bookings_to_view_json], a
    slot being [None] or a payload. The payload is a parameter so that the
    same loop can also record which list position filled a slot. *)
Record view (E : Type) : Type := mkView {
  current_booking : option E;
  first_coming_booking : option E;
  second_coming_booking : option E
}.
Arguments mkView {E} _ _ _.
Arguments current_booking {E} _.
Arguments first_coming_booking {E} _.
Arguments second_coming_booking {E} _.

(** ** SQL primitives over the table *)

(** [SELECT * FROM bookings WHERE cond]: the matching rows, in scan
    order. *)
Definition select_where (cond : booking -> bool) (db : database) : list booking :=
  filter cond db.

(** [cursor.fetchone()]: the first row of the result set, or [None]. *)
Definition fetchone (rows : list booking) : option booking :=
  match rows with
  | [] => None
  | row :: _ => Some row
  end.

(** The largest rowid in use, [None] for an empty table. *)
Fixpoint max_rowid (db : database) : option Z :=
  match db with
  | [] => None
  | row :: rest =>
      match max_rowid rest with
      | None => Some (id row)
      | Some m => Some (Z.max (id row) m)
      end
  end.

(** The rowid SQLite gives a row inserted without an id: 1 in an empty
    table, else one more than the largest rowid in use. *)
Definition next_rowid (db : database) : Z :=
  match max_rowid db with
  | None => 1
  | Some m => m + 1
  end.

(** [INSERT INTO bookings (start_time, end_time, description, user_id)
    VALUES (?, ?, ?, ?)]. *)
Definition insert_booking (s e : Z) (d u : string) (db : database) : database :=
  db ++ [mkBooking (next_rowid db) s e d u].

(** [DELETE FROM bookings WHERE id = ?]. *)
Definition delete_by_id (i : Z) (db : database) : database :=
  filter (fun row => negb (id row =? i)) db.

Definition set_end_time (e : Z) (row : booking) : booking :=
  mkBooking (id row) (start_time row) e (description row) (user_id row).

(** [UPDATE bookings SET end_time = ? WHERE id = ?]. *)
Definition update_end_time (e i : Z) (db : database) : database :=
  map (fun row => if id row =? i then set_end_time e row else row) db.

(** The condition [NOT (start_time >= ? OR end_time <= ?)] shared by the
    two overlap queries, its parameters in the order they are bound. *)
Definition overlaps_slot (p1 p2 : Z) (row : booking) : bool :=
  negb ((start_time row >=? p1) || (end_time row <=? p2)).

(** [ORDER BY start_time ASC], as a stable insertion sort on
    [start_time]: rows of equal start_time stay in scan order, as
    SQLite's sorter returns them (SQL itself leaves their order open, and
    no property below depends on it). *)
Fixpoint insert_by_start_time (row : booking) (sorted : list booking)
  : list booking :=
  match sorted with
  | [] => [row]
  | r :: rest =>
      if start_time row <=? start_time r
      then row :: r :: rest
      else r :: insert_by_start_time row rest
  end.

Definition order_by_start_time (rows : list booking) : list booking :=
  fold_right insert_by_start_time [] rows.

(** ** Booking engine *)

(** [sanitize_booking_input]: the start time and the duration in minutes
    chosen in the modal, the description typed there and the submitting
    user; [end_time] is the last second of the slot. *)
Definition sanitize_booking_input
  (selected_date_time duration : Z) (descr user : string) : Info.t :=
  Info.mk selected_date_time duration
          ((selected_date_time + duration * 60) - 1) descr user.

(** [add_booking]: look for a row overlapping the requested slot; raise
    if there is one, insert otherwise. *)
Definition add_booking (info : Info.t) (db : database) : outcome * database :=
  let existing_booking :=
    fetchone (select_where
                (overlaps_slot (Info.end_time info) (Info.start_time info)) db) in
  match existing_booking with
  | Some existing =>
      let error_message :=
        String.append "A booking called '"
          (String.append (description existing)
                         "' already exists during that time slot!") in
      (Raised (OverlappingBookingError error_message), db)
  | None =>
      (Returned,
       insert_booking (Info.start_time info) (Info.end_time info)
                      (Info.description info) (Info.user_id info) db)
  end.

(** [process_unbooking]: delete the selected booking, acknowledge, and
    tell the submitting user. *)
Definition process_unbooking (user : string) (unbooking_id : Z) (db : database)
  : handled :=
  mkHandled Ack
            [mkMessage user "Successfully removed booking."]
            (delete_by_id unbooking_id db).

(** [process_extending]: the selected booking and the number of minutes
    chosen in the modal. *)
Definition process_extending
  (user : string) (extending_id minutes : Z) (db : database) : handled :=
  let extension_in_seconds := minutes * 60 in
  match fetchone (select_where (fun row => id row =? extending_id) db) with
  | None =>
      mkHandled (AckErrors "extending_select" "Booking not found.") [] db
  | Some found =>
      let new_end_time := end_time found + extension_in_seconds in
      let overlapping_booking :=
        fetchone (select_where
                    (fun row => negb (id row =? extending_id)
                                && overlaps_slot new_end_time (start_time found) row)
                    db) in
      match overlapping_booking with
      | Some _ =>
          mkHandled
            (AckErrors "extending_select"
               "Cannot extend booking as it overlaps with another booking.")
            [] db
      | None =>
          mkHandled Ack
                    [mkMessage user "Successfully extended booking."]
                    (update_end_time new_end_time extending_id db)
      end
  end.

(** [get_all_future_user_bookings], the clock reading [current_time]
    passed in:
    [SELECT * FROM bookings WHERE user_id = ? AND end_time > ?
     ORDER BY start_time ASC]. *)
Definition get_all_future_user_bookings
  (user : string) (current_time : Z) (db : database) : list booking :=
  order_by_start_time
    (select_where (fun row => String.eqb (user_id row) user
                              && (end_time row >? current_time)) db).

(** ** Snapshot projection *)

Section Projection.

(** [get_readable_start_end_time]: the two HH:MM strings of a slot in the
    viewer's time zone. *)
Variable get_readable_start_end_time : Z -> Z -> string * string.

(** The entry written into a slot:
    [{"time": f"{start} - {end}", "description": description}]. *)
Definition make_entry (row : booking) : view_entry :=
  let strings := get_readable_start_end_time (start_time row) (end_time row) in
  mkEntry (String.append (fst strings) (String.append " - " (snd strings)))
          (description row).

(** [current_timestamp in range(start_time, end_time)]. *)
Definition in_range (x lo hi : Z) : bool := (lo <=? x) && (x <? hi).

Definition is_none {A : Type} (o : option A) : bool :=
  match o with
  | None => true
  | Some _ => false
  end.

Section Loop.

Context {E : Type}.

(** What the iteration at position [i] writes for the row it reads. *)
Variable payload : nat -> booking -> E.

(** The clock: the value of [int(datetime.now().timestamp())] read by the
    iteration at position [i]. *)
Variable clock : nat -> Z.

(** One iteration of the [for] loop, at position [i]; each branch ends in
    [continue]. *)
Definition view_step (i : nat) (row : booking) (info : view E) : view E :=
  let current_timestamp := clock i in
  if is_none (current_booking info)
     && in_range current_timestamp (start_time row) (end_time row)
  then mkView (Some (payload i row))
              (first_coming_booking info) (second_coming_booking info)
  else if is_none (first_coming_booking info)
  then mkView (current_booking info)
              (Some (payload i row)) (second_coming_booking info)
  else if is_none (second_coming_booking info)
  then mkView (current_booking info)
              (first_coming_booking info) (Some (payload i row))
  else info.

(** The [for] loop from position [i] on. *)
Fixpoint view_loop (i : nat) (rows : list booking) (info : view E) : view E :=
  match rows with
  | [] => info
  | row :: rest => view_loop (S i) rest (view_step i row info)
  end.

(** The body of [bookings_to_view_json] for a payload. *)
Definition fill_view (current_three_bookings : list booking) : view E :=
  let booking_information := mkView None None None in
  match current_three_bookings with
  | [] => booking_information
  | _ => view_loop 0%nat current_three_bookings booking_information
  end.

End Loop.

(** [bookings_to_view_json], before [json.dumps]. *)
Definition bookings_to_view_json
  (clock : nat -> Z) (current_three_bookings : list booking) : view view_entry :=
  fill_view (fun _ row => make_entry row) clock current_three_bookings.

End Projection.

(** The same loop recording, instead of the entry, which row filled each
    slot: its position in the input list and the row itself. *)
Definition slot_sources (clock : nat -> Z) (rows : list booking)
  : view (nat * booking) :=
  fill_view (fun i row => (i, row)) clock rows.

Definition map_view {A B : Type} (f : A -> B) (v : view A) : view B :=
  mkView (option_map f (current_booking v))
         (option_map f (first_coming_booking v))
         (option_map f (second_coming_booking v)).

(** ** Sequences of operations *)

(** A create (the call of [add_booking] with the dictionary of
    [sanitize_booking_input]), an extend (a submission of the extending
    modal by [user]) or a cancel (a submission of the unbooking modal). *)
Inductive operation : Type :=
| Create (info : Info.t)
| Extend (user : string) (extending_id minutes : Z)
| Cancel (user : string) (unbooking_id : Z).

(** The table after an operation that succeeds; [None] when [add_booking]
    raises or [process_extending] acknowledges with errors. *)
Definition apply_operation (op : operation) (db : database) : option database :=
  match op with
  | Create info =>
      match add_booking info db with
      | (Returned, db') => Some db'
      | (Raised _, _) => None
      end
  | Extend user extending_id minutes =>
      let h := process_extending user extending_id minutes db in
      match response h with
      | Ack => Some (store h)
      | AckErrors _ _ => None
      end
  | Cancel user unbooking_id =>
      let h := process_unbooking user unbooking_id db in
      match response h with
      | Ack => Some (store h)
      | AckErrors _ _ => None
      end
  end.

(** A sequence of operations each of which succeeds. *)
Fixpoint run (ops : list operation) (db : database) : option database :=
  match ops with
  | [] => Some db
  | op :: rest =>
      match apply_operation op db with
      | Some db' => run rest db'
      | None => None
      end
  end.

(** A create on whole minutes: the slot starts at second 0 of a minute and
    ends at second 59 of a minute, as [sanitize_booking_input] computes
    from a start on a whole minute. An extend adds whole minutes and a
    cancel adds nothing. *)
Definition on_whole_minutes (op : operation) : Prop :=
  match op with
  | Create info =>
      Info.start_time info mod 60 = 0 /\ (Info.end_time info + 1) mod 60 = 0
  | Extend _ _ _ => True
  | Cancel _ _ => True
  end.

(** ** The specification's notions, for comparison *)

(** The specification's intersection of the closed intervals of two
    bookings: NOT (a.start > b.end OR a.end < b.start). *)
Definition spec_intervals_intersect (a b : booking) : bool :=
  negb ((start_time a >? end_time b) || (end_time a <? start_time b)).

(** The specification's containment of an instant in the closed interval
    of a booking. *)
Definition spec_interval_contains (row : booking) (now : Z) : bool :=
  (start_time row <=? now) && (now <=? end_time row).

(** The specification's projection: the first booking whose closed
    interval contains [now] becomes current, the others fill next1 then
    next2 in order. *)
Fixpoint spec_project_from (now : Z) (rows : list booking) (v : view booking)
  : view booking :=
  match rows with
  | [] => v
  | row :: rest =>
      spec_project_from now rest
        (if is_none (current_booking v) && spec_interval_contains row now
         then mkView (Some row) (first_coming_booking v) (second_coming_booking v)
         else if is_none (first_coming_booking v)
         then mkView (current_booking v) (Some row) (second_coming_booking v)
         else if is_none (second_coming_booking v)
         then mkView (current_booking v) (first_coming_booking v) (Some row)
         else v)
  end.

Definition spec_project (now : Z) (rows : list booking) : view booking :=
  spec_project_from now rows (mkView None None None).

(** ** The other queries *)

(** [get_coming_week_bookings], the two timestamps computed from the
    local date passed in:
    [SELECT * FROM bookings WHERE start_time >= ? AND start_time <= ?
     ORDER BY start_time ASC]. *)
Definition get_coming_week_bookings
  (today_start_timestamp one_week_later_timestamp : Z) (db : database)
  : list booking :=
  order_by_start_time
    (select_where (fun row => (start_time row >=? today_start_timestamp)
                              && (start_time row <=? one_week_later_timestamp)) db).

(** [get_current_three_bookings], the two timestamps passed in:
    [SELECT * FROM bookings WHERE end_time >= ? AND start_time <= ?
     ORDER BY start_time ASC LIMIT 3]. *)
Definition get_current_three_bookings
  (current_timestamp today_end_timestamp : Z) (db : database) : list booking :=
  firstn 3
    (order_by_start_time
       (select_where (fun row => (end_time row >=? current_timestamp)
                                 && (start_time row <=? today_end_timestamp)) db)).

(** ** Rendering for Slack and for the viewer *)

(** [str(n)] for an integer: its decimal numeral, with a minus sign when
    negative. *)
Definition str (n : Z) : string := NilZero.string_of_int (Z.to_int n).

(** An entry of a select menu: [{"text": {..., "text": text}, "value":
    value}]; the constant fields are left out. *)
Record slack_option : Type := mkOption {
  option_text : string;
  option_value : string
}.

(** A block of the bookings list modal: a divider, a header with its
    text, or a section with its text; the constant fields are left out. *)
Inductive block : Type :=
| Divider
| Header (header_text : string)
| SectionBlock (section_text : string).

(** The view a command opens. A select modal is the shared template with
    its options overwritten, the list modal the shared template with its
    blocks overwritten. *)
Inductive opened_view : Type :=
| BookingModal
| NoBookingsModal
| UnbookingModal (options : list slack_option)
| ExtendingModal (options : list slack_option)
| BookingsListModal (blocks : list block).

(** What [viewing_command] does after acknowledging. *)
Inductive command_action : Type :=
| SendBookingsListInterface
| OpenBookingModal
| SendUnbookInterface (user : string)
| SendExtendInterface (user : string)
| NoAction.

Section Rendering.

(** [strftime("%H:%M")], [strftime("%B %d")] and [strftime("%B %d: %H:%M")]
    of an instant in the time zone Europe/Amsterdam. *)
Variable hour_minute : Z -> string.
Variable month_day : Z -> string.
Variable get_readable_time_from_unix_time : Z -> string.

(** [get_readable_start_end_time]: the end shown is the second after
    [end_time]. *)
Definition get_readable_start_end_time (start_time end_time : Z)
  : string * string :=
  let start_time_string := hour_minute start_time in
  let end_time_string := hour_minute (end_time + 1) in
  (start_time_string, end_time_string).

(** [process_booking]: the values of the booking modal and the submitting
    user. *)
Definition process_booking
  (selected_date_time duration : Z) (descr user : string) (db : database)
  : handled :=
  let booking_information :=
    sanitize_booking_input selected_date_time duration descr user in
  match add_booking booking_information db with
  | (Raised (OverlappingBookingError error_message), db') =>
      mkHandled (AckErrors "booking_datetime" error_message) [] db'
  | (Returned, db') =>
      let human_readable_time :=
        get_readable_time_from_unix_time (Info.start_time booking_information) in
      mkHandled Ack
        [mkMessage user
           (String.append "Successfully booked viewing on "
              (String.append human_readable_time "."))]
        db'
  end.

(** [bookings_to_slack_options]. *)
Definition bookings_to_slack_options (bookings : list booking)
  : list slack_option :=
  map (fun row =>
         let readable_start_time :=
           get_readable_time_from_unix_time (start_time row) in
         mkOption (String.append (description row)
                     (String.append " - " readable_start_time))
                  (str (id row)))
      bookings.

(** [send_unbook_interface]: the view opened, and the options left in the
    shared template [UNBOOKING_MODAL], which the function overwrites in
    place. *)
Definition send_unbook_interface
  (user : string) (current_time : Z) (db : database)
  (UNBOOKING_MODAL : list slack_option) : opened_view * list slack_option :=
  let user_bookings := get_all_future_user_bookings user current_time db in
  match user_bookings with
  | _ :: _ =>
      let input_options := bookings_to_slack_options user_bookings in
      (UnbookingModal input_options, input_options)
  | [] => (NoBookingsModal, UNBOOKING_MODAL)
  end.

(** [send_extend_interface], with the shared template [EXTENDING_MODAL]. *)
Definition send_extend_interface
  (user : string) (current_time : Z) (db : database)
  (EXTENDING_MODAL : list slack_option) : opened_view * list slack_option :=
  let user_bookings := get_all_future_user_bookings user current_time db in
  match user_bookings with
  | _ :: _ =>
      let input_options := bookings_to_slack_options user_bookings in
      (ExtendingModal input_options, input_options)
  | [] => (NoBookingsModal, EXTENDING_MODAL)
  end.

(** The [for] loop of [bookings_to_slack_list], with its two variables
    [last_date] and [blocks]. *)
Fixpoint slack_list_loop
  (bookings : list booking) (last_date : option string) (blocks : list block)
  : list block :=
  match bookings with
  | [] => blocks
  | row :: rest =>
      let date_string := month_day (start_time row) in
      let strings := get_readable_start_end_time (start_time row) (end_time row) in
      let differs :=
        match last_date with
        | None => true
        | Some d => negb (String.eqb date_string d)
        end in
      let blocks1 :=
        if differs
        then (match last_date with
              | Some _ => blocks ++ [Divider]
              | None => blocks
              end) ++ [Header date_string]
        else blocks in
      let last_date1 := if differs then Some date_string else last_date in
      slack_list_loop rest last_date1
        (blocks1 ++
         [SectionBlock
            (String.append (fst strings)
               (String.append "-"
                  (String.append (snd strings)
                     (String.append ": " (description row)))))])
  end.

(** [bookings_to_slack_list]. *)
Definition bookings_to_slack_list (bookings : list booking) : list block :=
  slack_list_loop bookings None [].

(** [send_bookings_list_interface]: the view opened, which is also the
    content left in the shared template [BOOKINGS_MODAL]. *)
Definition send_bookings_list_interface
  (today_start_timestamp one_week_later_timestamp : Z) (db : database)
  : opened_view :=
  let coming_week_bookings :=
    get_coming_week_bookings today_start_timestamp one_week_later_timestamp db in
  BookingsListModal (bookings_to_slack_list coming_week_bookings).

(** One round of [websocket_connection_handler]: the document sent to the
    screen. [current_timestamp] and [today_end_timestamp] are the clock
    readings of the query, [clock] those of the loop of
    [bookings_to_view_json]. *)
Definition websocket_update
  (current_timestamp today_end_timestamp : Z) (clock : nat -> Z) (db : database)
  : view view_entry :=
  let current_three_bookings :=
    get_current_three_bookings current_timestamp today_end_timestamp db in
  bookings_to_view_json get_readable_start_end_time clock current_three_bookings.

End Rendering.

(** [viewing_command]: the text after the command and the user of the
    context; [startswith] is tested in the order of the source. *)
Definition viewing_command (user_input user : string) : command_action :=
  if String.prefix "bookings" user_input then SendBookingsListInterface
  else if String.prefix "book" user_input then OpenBookingModal
  else if String.prefix "unbook" user_input then SendUnbookInterface user
  else if String.prefix "extend" user_input then SendExtendInterface user
  else NoAction.

(** ** Any sequence of submissions *)

(** The table a submission leaves behind, whether it is accepted or
    refused. *)
Definition table_after (op : operation) (db : database) : database :=
  match op with
  | Create info => snd (add_booking info db)
  | Extend user extending_id minutes =>
      store (process_extending user extending_id minutes db)
  | Cancel user unbooking_id => store (process_unbooking user unbooking_id db)
  end.

(** The table after a sequence of submissions. *)
Definition table_after_all (ops : list operation) (db : database) : database :=
  fold_left (fun table op => table_after op table) ops db.

(** The rows are in strictly ascending order of id. *)
Definition rowid_ordered (db : database) : Prop :=
  StronglySorted (fun a b => id a < id b) db.

(** A submission that cannot make a slot empty: a create of a slot that
    starts before it ends, as [sanitize_booking_input] builds from one
    minute or more, or an extend by no less than zero minutes. *)
Definition keeps_slots_nonempty (op : operation) : Prop :=
  match op with
  | Create info => Info.start_time info < Info.end_time info
  | Extend _ _ minutes => 0 <= minutes
  | Cancel _ _ => True
  end.

(** Every row starts before it ends. *)
Definition slots_nonempty (db : database) : Prop :=
  forall row, In row db -> start_time row < end_time row.

(** A booking holds the room at a second: the second is in its slot, both
    ends included. *)
Definition holds_room (row : booking) (second : Z) : Prop :=
  start_time row <= second <= end_time row.

(** ** Shape of the bookings list *)

(** The texts of the sections and of the headers of a list of blocks, in
    order, and the number of dividers. *)
Definition section_texts (blocks : list block) : list string :=
  flat_map (fun b => match b with SectionBlock t => [t] | _ => [] end) blocks.

Definition header_texts (blocks : list block) : list string :=
  flat_map (fun b => match b with Header t => [t] | _ => [] end) blocks.

Definition count_dividers (blocks : list block) : nat :=
  List.length (filter (fun b => match b with Divider => true | _ => false end)
                      blocks).

(** A list of dates with runs of equal consecutive dates collapsed. *)
Fixpoint collapse_runs (last_date : option string) (dates : list string)
  : list string :=
  match dates with
  | [] => []
  | d :: rest =>
      match last_date with
      | Some l => if String.eqb d l then collapse_runs (Some d) rest
                  else d :: collapse_runs (Some d) rest
      | None => d :: collapse_runs (Some d) rest
      end
  end.

(** Every divider is directly followed by a header. *)
Definition dividers_announce_headers (blocks : list block) : Prop :=
  forall before after, blocks = before ++ Divider :: after ->
    exists d rest, after = Header d :: rest.

(** ** Invariants of the table *)

(** No two rows with different ids overlap in the sense of the overlap
    queries: their slots share at most an end point. *)
Definition pairwise_disjoint (db : database) : Prop :=
  forall a b, In a db -> In b db -> id a <> id b ->
    ~ (start_time a < end_time b /\ start_time b < end_time a).

(** Every row starts at second 0 of a minute and ends at second 59 of a
    minute. *)
Definition rows_on_whole_minutes (db : database) : Prop :=
  forall row, In row db ->
    start_time row mod 60 = 0 /\ (end_time row + 1) mod 60 = 0.

(** ** Invariants of the projection loop *)

(** A slot filled from position [j] holds the row at that position of the
    input [rows], and [j] is below the position [n] the loop has reached. *)
Definition slot_from (rows : list booking) (n : nat) (s : option (nat * booking))
  : Prop :=
  match s with
  | None => True
  | Some (j, row) => (j < n)%nat /\ nth_error rows j = Some row
  end.

(** Two slots are not filled from the same position. *)
Definition distinct_slots (a b : option (nat * booking)) : Prop :=
  match a, b with
  | Some (i, _), Some (j, _) => i <> j
  | _, _ => True
  end.

(** What the loop maintains once it has read the rows before position
    [n]: every slot comes from such a row, no two from the same one, and
    the second coming slot is filled only after the first. *)
Record sources_ok (rows : list booking) (n : nat) (v : view (nat * booking))
  : Prop := mkSourcesOk {
  current_from : slot_from rows n (current_booking v);
  first_from : slot_from rows n (first_coming_booking v);
  second_from : slot_from rows n (second_coming_booking v);
  current_first : distinct_slots (current_booking v) (first_coming_booking v);
  current_second : distinct_slots (current_booking v) (second_coming_booking v);
  first_second : distinct_slots (first_coming_booking v) (second_coming_booking v);
  second_after_first :
    first_coming_booking v = None -> second_coming_booking v = None
}.

(** * Properties *)

(** ** Queries *)

Lemma fetchone_select_none (cond : booking -> bool) (db : database) :
  fetchone (select_where cond db) = None <->
  forall row, In row db -> cond row = false.
Proof.
  unfold select_where. induction db as [|r db IH]; simpl.
  - split; [intros _ row [] | reflexivity].
  - destruct (cond r) eqn:Hr; simpl.
    + split; [discriminate |].
      intros H. specialize (H r (or_introl eq_refl)). congruence.
    + rewrite IH. split.
      * intros H row [<- | Hin]; auto.
      * intros H row Hin. apply H. now right.
Qed.

Lemma fetchone_select_some (cond : booking -> bool) (db : database) (row : booking) :
  fetchone (select_where cond db) = Some row ->
  exists before after,
    db = before ++ row :: after /\ cond row = true /\
    forall r, In r before -> cond r = false.
Proof.
  unfold select_where. induction db as [|r db IH]; simpl; [discriminate |].
  destruct (cond r) eqn:Hr; simpl.
  - intros [= <-]. exists [], db. repeat split; auto. intros ? [].
  - intros H. destruct (IH H) as (before & after & -> & Hc & Hb).
    exists (r :: before), after. repeat split; auto.
    intros x [<- | Hin]; auto.
Qed.

Lemma fetchone_select_in (cond : booking -> bool) (db : database) (row : booking) :
  fetchone (select_where cond db) = Some row -> In row db /\ cond row = true.
Proof.
  intros H. destruct (fetchone_select_some _ _ _ H) as (b & a & -> & Hc & _).
  split; [apply in_elt | exact Hc].
Qed.

Lemma fetchone_select_found (cond : booking -> bool) (db : database) (row : booking) :
  In row db -> cond row = true ->
  exists first, fetchone (select_where cond db) = Some first.
Proof.
  intros Hin Hc.
  destruct (fetchone (select_where cond db)) as [first|] eqn:E; [now exists first |].
  rewrite fetchone_select_none in E. rewrite (E row Hin) in Hc. discriminate.
Qed.

Lemma overlaps_slot_true (p1 p2 : Z) (row : booking) :
  overlaps_slot p1 p2 row = true <-> start_time row < p1 /\ p2 < end_time row.
Proof.
  unfold overlaps_slot.
  rewrite negb_true_iff, orb_false_iff, Z.geb_leb, !Z.leb_gt. tauto.
Qed.

Lemma overlaps_slot_false (p1 p2 : Z) (row : booking) :
  overlaps_slot p1 p2 row = false <-> ~ (start_time row < p1 /\ p2 < end_time row).
Proof.
  rewrite <- overlaps_slot_true. destruct (overlaps_slot p1 p2 row); split; intros; congruence.
Qed.

(** ** Row identifiers *)

Lemma max_rowid_bound (db : database) (row : booking) :
  In row db -> exists m, max_rowid db = Some m /\ id row <= m.
Proof.
  induction db as [|r db IH]; simpl; [intros [] |].
  intros [<- | Hin].
  - destruct (max_rowid db) as [m|]; eexists; split; eauto; lia.
  - destruct (IH Hin) as (m & -> & Hle). eexists; split; eauto. lia.
Qed.

Lemma next_rowid_fresh (db : database) (row : booking) :
  In row db -> id row < next_rowid db.
Proof.
  intros Hin. unfold next_rowid.
  destruct (max_rowid_bound db row Hin) as (m & -> & Hle). lia.
Qed.

Lemma unique_id_same_row (db : database) (a b : booking) :
  NoDup (map id db) -> In a db -> In b db -> id a = id b -> a = b.
Proof.
  induction db as [|r db IH]; simpl; [intros _ [] |].
  intros Hnd [<- | Ha] [<- | Hb] Heq; auto; inversion_clear Hnd as [|? ? Hni Hnd'].
  - exfalso. apply Hni. rewrite Heq. now apply in_map.
  - exfalso. apply Hni. rewrite <- Heq. now apply in_map.
  - now apply IH.
Qed.

Lemma insert_booking_unique_ids (s e : Z) (d u : string) (db : database) :
  NoDup (map id db) -> NoDup (map id (insert_booking s e d u db)).
Proof.
  intros Hnd. unfold insert_booking. rewrite map_app. simpl.
  apply NoDup_app; [exact Hnd | repeat constructor; intros [] |].
  intros i Hi [<- | []].
  apply in_map_iff in Hi. destruct Hi as (row & Hid & Hin).
  pose proof (next_rowid_fresh db row Hin). lia.
Qed.

Lemma update_end_time_ids (e i : Z) (db : database) :
  map id (update_end_time e i db) = map id db.
Proof.
  unfold update_end_time. rewrite map_map. apply map_ext.
  intros row. now destruct (id row =? i).
Qed.

Lemma delete_by_id_unique_ids (i : Z) (db : database) :
  NoDup (map id db) -> NoDup (map id (delete_by_id i db)).
Proof.
  unfold delete_by_id. induction db as [|r db IH]; simpl; intros Hnd; [constructor |].
  inversion_clear Hnd as [|? ? Hfresh Hnd'].
  destruct (negb (id r =? i)); simpl; auto.
  constructor; auto.
  intros Hin. apply Hfresh. apply in_map_iff in Hin.
  destruct Hin as (row & Hid & Hrow). apply filter_In in Hrow.
  rewrite <- Hid. apply in_map. tauto.
Qed.

Lemma in_delete_by_id (i : Z) (db : database) (row : booking) :
  In row (delete_by_id i db) <-> In row db /\ id row <> i.
Proof.
  unfold delete_by_id. rewrite filter_In, negb_true_iff, Z.eqb_neq. tauto.
Qed.

Lemma in_update_end_time (e i : Z) (db : database) (row' : booking) :
  In row' (update_end_time e i db) <->
  exists row, In row db /\
    ((id row <> i /\ row' = row) \/ (id row = i /\ row' = set_end_time e row)).
Proof.
  unfold update_end_time. rewrite in_map_iff. split.
  - intros (row & <- & Hin). exists row. split; [exact Hin |].
    destruct (Z.eqb_spec (id row) i); [right | left]; auto.
  - intros (row & Hin & [[Hne ->] | [Heq ->]]); exists row; split; auto.
    + now destruct (Z.eqb_spec (id row) i).
    + now destruct (Z.eqb_spec (id row) i).
Qed.

(** ** The two writers *)

Lemma add_booking_returned (info : Info.t) (db db' : database) :
  add_booking info db = (Returned, db') ->
  db' = insert_booking (Info.start_time info) (Info.end_time info)
                       (Info.description info) (Info.user_id info) db /\
  forall row, In row db ->
    overlaps_slot (Info.end_time info) (Info.start_time info) row = false.
Proof.
  unfold add_booking.
  destruct (fetchone _) as [existing|] eqn:E; [discriminate |].
  intros [= <-]. split; [reflexivity |].
  now apply fetchone_select_none.
Qed.

Lemma process_extending_ack (user : string) (i m : Z) (db : database) :
  response (process_extending user i m db) = Ack ->
  exists found,
    In found db /\ id found = i /\
    fetchone (select_where (fun row => id row =? i) db) = Some found /\
    process_extending user i m db =
      mkHandled Ack [mkMessage user "Successfully extended booking."]
                (update_end_time (end_time found + m * 60) i db) /\
    forall row, In row db -> id row <> i ->
      overlaps_slot (end_time found + m * 60) (start_time found) row = false.
Proof.
  unfold process_extending. cbv zeta.
  destruct (fetchone (select_where (fun row => id row =? i) db))
    as [found|] eqn:Ef; [| discriminate].
  destruct (fetchone
              (select_where
                 (fun row => negb (id row =? i)
                             && overlaps_slot (end_time found + m * 60)
                                              (start_time found) row) db))
    as [other|] eqn:Eo; [simpl; discriminate |].
  intros _. exists found.
  destruct (fetchone_select_in _ _ _ Ef) as [Hin Hid].
  apply Z.eqb_eq in Hid. repeat split; auto.
  intros row Hrow Hne.
  rewrite fetchone_select_none in Eo. specialize (Eo row Hrow). simpl in Eo.
  destruct (Z.eqb_spec (id row) i); [contradiction | exact Eo].
Qed.

(** ** Preservation of the invariants *)

Lemma insert_pairwise_disjoint (info : Info.t) (db : database) :
  (forall row, In row db ->
     overlaps_slot (Info.end_time info) (Info.start_time info) row = false) ->
  pairwise_disjoint db ->
  pairwise_disjoint
    (insert_booking (Info.start_time info) (Info.end_time info)
                    (Info.description info) (Info.user_id info) db).
Proof.
  intros Hfree Hdb a b Ha Hb Hne. unfold insert_booking in Ha, Hb.
  apply in_app_iff in Ha. apply in_app_iff in Hb. simpl in Ha, Hb.
  destruct Ha as [Ha | [<- | []]], Hb as [Hb | [<- | []]]; simpl in *.
  - now apply Hdb.
  - pose proof (proj1 (overlaps_slot_false _ _ _) (Hfree a Ha)). lia.
  - pose proof (proj1 (overlaps_slot_false _ _ _) (Hfree b Hb)). lia.
  - congruence.
Qed.

Lemma update_pairwise_disjoint (found : booking) (e : Z) (db : database) :
  NoDup (map id db) -> In found db ->
  (forall row, In row db -> id row <> id found ->
     overlaps_slot e (start_time found) row = false) ->
  pairwise_disjoint db ->
  pairwise_disjoint (update_end_time e (id found) db).
Proof.
  intros Hnd Hfound Hfree Hdb a' b' Ha Hb Hne.
  apply in_update_end_time in Ha. apply in_update_end_time in Hb.
  destruct Ha as (a & Ha & [[Hai ->] | [Hai ->]]);
    destruct Hb as (b & Hb & [[Hbi ->] | [Hbi ->]]); simpl in *.
  - now apply Hdb.
  - assert (b = found) as -> by (eapply unique_id_same_row; eauto).
    pose proof (proj1 (overlaps_slot_false _ _ _) (Hfree a Ha Hai)). lia.
  - assert (a = found) as -> by (eapply unique_id_same_row; eauto).
    pose proof (proj1 (overlaps_slot_false _ _ _) (Hfree b Hb Hbi)). lia.
  - congruence.
Qed.

Lemma apply_operation_invariant (op : operation) (db db' : database) :
  apply_operation op db = Some db' ->
  NoDup (map id db) /\ pairwise_disjoint db ->
  NoDup (map id db') /\ pairwise_disjoint db'.
Proof.
  intros Hop [Hnd Hdis]. destruct op as [info | user i m | user i]; simpl in Hop.
  - destruct (add_booking info db) as [[|e] db1] eqn:E; [| discriminate].
    injection Hop as <-. apply add_booking_returned in E. destruct E as [-> Hfree].
    split; [now apply insert_booking_unique_ids | now apply insert_pairwise_disjoint].
  - destruct (response (process_extending user i m db)) eqn:E; [| discriminate].
    injection Hop as <-.
    destruct (process_extending_ack _ _ _ _ E) as (found & Hin & <- & _ & -> & Hfree).
    simpl. split.
    + now rewrite update_end_time_ids.
    + now apply update_pairwise_disjoint.
  - injection Hop as <-. split; [now apply delete_by_id_unique_ids |].
    intros a b Ha Hb. apply in_delete_by_id in Ha, Hb. apply Hdis; tauto.
Qed.

Lemma apply_operation_whole_minutes (op : operation) (db db' : database) :
  apply_operation op db = Some db' -> on_whole_minutes op ->
  rows_on_whole_minutes db -> rows_on_whole_minutes db'.
Proof.
  intros Hop Hal Hdb. destruct op as [info | user i m | user i]; simpl in Hop, Hal.
  - destruct (add_booking info db) as [[|e] db1] eqn:E; [| discriminate].
    injection Hop as <-. apply add_booking_returned in E. destruct E as [-> _].
    intros row Hrow. unfold insert_booking in Hrow.
    apply in_app_iff in Hrow. destruct Hrow as [Hrow | [<- | []]]; auto.
  - destruct (response (process_extending user i m db)) eqn:E; [| discriminate].
    injection Hop as <-.
    destruct (process_extending_ack _ _ _ _ E) as (found & Hin & <- & _ & -> & _).
    simpl. intros row' Hrow. apply in_update_end_time in Hrow.
    destruct Hrow as (row & Hrow & [[_ ->] | [Hid ->]]); auto.
    simpl. destruct (Hdb row Hrow) as [Hs _]. split; [exact Hs |].
    destruct (Hdb found Hin) as [_ He].
    replace (end_time found + m * 60 + 1) with (end_time found + 1 + m * 60) by lia.
    now rewrite Z.mod_add by lia.
  - injection Hop as <-. intros row Hrow. apply in_delete_by_id in Hrow.
    apply Hdb. tauto.
Qed.

Lemma run_invariant (ops : list operation) (db db' : database) :
  run ops db = Some db' ->
  NoDup (map id db) /\ pairwise_disjoint db ->
  NoDup (map id db') /\ pairwise_disjoint db'.
Proof.
  revert db. induction ops as [|op ops IH]; simpl; intros db Hrun Hinv.
  - now injection Hrun as <-.
  - destruct (apply_operation op db) as [db1|] eqn:E; [| discriminate].
    eapply IH; eauto. eapply apply_operation_invariant; eauto.
Qed.

Lemma run_whole_minutes (ops : list operation) (db db' : database) :
  run ops db = Some db' -> Forall on_whole_minutes ops ->
  rows_on_whole_minutes db -> rows_on_whole_minutes db'.
Proof.
  revert db. induction ops as [|op ops IH]; simpl; intros db Hrun Hal Hdb.
  - now injection Hrun as <-.
  - destruct (apply_operation op db) as [db1|] eqn:E; [| discriminate].
    inversion_clear Hal as [|? ? Hop Hops].
    eapply IH; eauto. eapply apply_operation_whole_minutes; eauto.
Qed.

Lemma minute_start_is_no_minute_end (x y : Z) :
  x mod 60 = 0 -> (y + 1) mod 60 = 0 -> x <> y.
Proof.
  intros Hx Hy Heq. rewrite <- Heq in Hy.
  rewrite <- Zplus_mod_idemp_l, Hx in Hy. discriminate.
Qed.

Lemma whole_minutes_closed_disjoint (a b : booking) :
  start_time a mod 60 = 0 -> (end_time a + 1) mod 60 = 0 ->
  start_time b mod 60 = 0 -> (end_time b + 1) mod 60 = 0 ->
  ~ (start_time a < end_time b /\ start_time b < end_time a) ->
  spec_intervals_intersect a b = false.
Proof.
  intros Hsa Hea Hsb Heb Hdis. unfold spec_intervals_intersect.
  apply negb_false_iff, orb_true_iff.
  rewrite Z.gtb_ltb, !Z.ltb_lt.
  assert (start_time a <> end_time b).
  { intros Heq. rewrite <- Heq in Heb.
    rewrite <- Zplus_mod_idemp_l, Hsa in Heb. discriminate. }
  assert (start_time b <> end_time a).
  { intros Heq. rewrite <- Heq in Hea.
    rewrite <- Zplus_mod_idemp_l, Hsb in Hea. discriminate. }
  lia.
Qed.

(** ** Non-overlap of the stored bookings *)

(** C1, as the code has it. After any sequence of creates and extends
    that all succeed (cancels may come in between), starting from the
    empty table, ids are unique and no
    two distinct bookings overlap in the sense of the overlap queries
    (a.start < b.end and b.start < a.end never both hold): two slots share
    at most an end point. When every create is on whole minutes, the
    closed intervals of two distinct bookings do not intersect at all, in
    the specification's sense. *)
Theorem non_overlap_invariant (ops : list operation) (db : database) :
  run ops [] = Some db ->
  NoDup (map id db) /\
  (forall a b, In a db -> In b db -> a <> b ->
     ~ (start_time a < end_time b /\ start_time b < end_time a)) /\
  (Forall on_whole_minutes ops ->
   forall a b, In a db -> In b db -> a <> b ->
     spec_intervals_intersect a b = false).
Proof.
  intros Hrun.
  assert (NoDup (map id db) /\ pairwise_disjoint db) as [Hnd Hdis].
  { apply (run_invariant ops [] db Hrun). split; [constructor | intros ? ? []]. }
  assert (forall a b, In a db -> In b db -> a <> b -> id a <> id b) as Hids.
  { intros a b Ha Hb Hne Heq. apply Hne. eapply unique_id_same_row; eauto. }
  split; [exact Hnd | split].
  - intros a b Ha Hb Hne. apply Hdis; auto.
  - intros Hal a b Ha Hb Hne.
    assert (rows_on_whole_minutes db) as Hwm.
    { apply (run_whole_minutes ops [] db Hrun Hal). intros ? []. }
    destruct (Hwm a Ha) as [Hsa Hea]. destruct (Hwm b Hb) as [Hsb Heb].
    apply whole_minutes_closed_disjoint; auto.
Qed.

(** An instance of [non_overlap_invariant]: three creates on whole minutes
    and an extend, all succeeding. *)
Lemma non_overlap_invariant_witness :
  let db := [mkBooking 1 0 119 "standup" "U1";
             mkBooking 2 120 239 "dailies" "U2";
             mkBooking 3 600 659 "review" "U1"] in
  NoDup (map id db) /\
  (forall a b, In a db -> In b db -> a <> b ->
     ~ (start_time a < end_time b /\ start_time b < end_time a)) /\
  (forall a b, In a db -> In b db -> a <> b ->
     spec_intervals_intersect a b = false).
Proof.
  pose (ops := [Create (sanitize_booking_input 0 1 "standup" "U1");
                Create (sanitize_booking_input 120 2 "dailies" "U2");
                Extend "U2" 1 1;
                Create (sanitize_booking_input 300 1 "lunch" "U3");
                Cancel "U1" 3;
                Create (sanitize_booking_input 600 1 "review" "U1")]).
  destruct (non_overlap_invariant ops
              [mkBooking 1 0 119 "standup" "U1";
               mkBooking 2 120 239 "dailies" "U2";
               mkBooking 3 600 659 "review" "U1"] eq_refl) as (H1 & H2 & H3).
  split; [exact H1 | split; [exact H2 |]].
  apply H3. repeat constructor.
Defined.

(** C1, as stated, fails: two one-minute bookings created at seconds 0 and
    59 are both admitted, and their closed intervals [0,59] and [59,118]
    share second 59. *)
Lemma closed_intervals_can_touch :
  run [Create (sanitize_booking_input 0 1 "first" "U1");
       Create (sanitize_booking_input 59 1 "second" "U2")] []
  = Some [mkBooking 1 0 59 "first" "U1"; mkBooking 2 59 118 "second" "U2"]
  /\ spec_intervals_intersect (mkBooking 1 0 59 "first" "U1")
                              (mkBooking 2 59 118 "second" "U2") = true.
Proof. split; reflexivity. Qed.

(** ** Adjacent bookings *)

Lemma add_booking_free (info : Info.t) (db : database) :
  (forall row, In row db ->
     ~ (start_time row < Info.end_time info /\ Info.start_time info < end_time row)) ->
  add_booking info db =
  (Returned,
   db ++ [mkBooking (next_rowid db) (Info.start_time info) (Info.end_time info)
                    (Info.description info) (Info.user_id info)]).
Proof.
  intros Hfree. unfold add_booking.
  destruct (fetchone _) as [existing|] eqn:E; [| reflexivity].
  apply fetchone_select_in in E. destruct E as [Hin Hc].
  apply overlaps_slot_true in Hc. exfalso. apply (Hfree existing Hin). lia.
Qed.

(** C3. [sanitize_booking_input] sets end_time to start + minutes*60 - 1;
    after a one-minute booking at second 100, which occupies [100,159], a
    booking of any length starting at second 160 is created and both are
    in the table; in general a booking that starts one second after a
    stored booking ends, or ends one second before it starts, is admitted
    beside it whenever no other row overlaps the request. *)
Theorem adjacency_is_not_overlap :
  (forall s d descr u,
     Info.start_time (sanitize_booking_input s d descr u) = s /\
     Info.end_time (sanitize_booking_input s d descr u) = s + d * 60 - 1)
  /\
  (forall d descr1 u1 descr2 u2,
     add_booking (sanitize_booking_input 100 1 descr1 u1) []
     = (Returned, [mkBooking 1 100 159 descr1 u1])
     /\
     add_booking (sanitize_booking_input 160 d descr2 u2)
                 [mkBooking 1 100 159 descr1 u1]
     = (Returned, [mkBooking 1 100 159 descr1 u1;
                   mkBooking 2 160 (160 + d * 60 - 1) descr2 u2]))
  /\
  (forall (db : database) (first : booking) (info : Info.t),
     In first db ->
     Info.start_time info = end_time first + 1 \/
     start_time first = Info.end_time info + 1 ->
     (forall row, In row db -> row <> first ->
        overlaps_slot (Info.end_time info) (Info.start_time info) row = false) ->
     add_booking info db =
     (Returned,
      db ++ [mkBooking (next_rowid db) (Info.start_time info) (Info.end_time info)
                       (Info.description info) (Info.user_id info)])).
Proof.
  assert (forall (db : database) (first : booking) (info : Info.t),
     In first db ->
     Info.start_time info = end_time first + 1 \/
     start_time first = Info.end_time info + 1 ->
     (forall row, In row db -> row <> first ->
        overlaps_slot (Info.end_time info) (Info.start_time info) row = false) ->
     add_booking info db =
     (Returned,
      db ++ [mkBooking (next_rowid db) (Info.start_time info) (Info.end_time info)
                       (Info.description info) (Info.user_id info)])) as Hgen.
  { intros db first info Hin Hadj Hothers. apply add_booking_free.
    intros row Hrow.
    assert ({row = first} + {row <> first}) as [-> | Hne].
    { repeat decide equality. }
    - lia.
    - apply overlaps_slot_false. auto. }
  split; [| split].
  - intros. split; simpl; lia.
  - intros d descr1 u1 descr2 u2. split; [reflexivity |].
    rewrite (Hgen [mkBooking 1 100 159 descr1 u1] (mkBooking 1 100 159 descr1 u1)).
    + reflexivity.
    + now left.
    + now left.
    + intros row [<- | []] Hne. congruence.
  - exact Hgen.
Qed.

(** An instance of [adjacency_is_not_overlap]: a slot before and a slot
    after a stored booking, each one second apart from it. *)
Lemma adjacency_is_not_overlap_witness :
  add_booking (sanitize_booking_input 3660 1 "after" "U2")
              [mkBooking 7 3600 3659 "first" "U1"]
  = (Returned, [mkBooking 7 3600 3659 "first" "U1";
                mkBooking 8 3660 3719 "after" "U2"])
  /\
  add_booking (sanitize_booking_input 3540 1 "before" "U2")
              [mkBooking 7 3600 3659 "first" "U1"]
  = (Returned, [mkBooking 7 3600 3659 "first" "U1";
                mkBooking 8 3540 3599 "before" "U2"]).
Proof.
  destruct adjacency_is_not_overlap as (_ & _ & Hgen).
  split.
  - apply (Hgen [mkBooking 7 3600 3659 "first" "U1"]
                (mkBooking 7 3600 3659 "first" "U1")
                (sanitize_booking_input 3660 1 "after" "U2")).
    + simpl. now left.
    + left. reflexivity.
    + intros row [<- | []] Hne. congruence.
  - apply (Hgen [mkBooking 7 3600 3659 "first" "U1"]
                (mkBooking 7 3600 3659 "first" "U1")
                (sanitize_booking_input 3540 1 "before" "U2")).
    + simpl. now left.
    + right. reflexivity.
    + intros row [<- | []] Hne. congruence.
Defined.

(** ** Creating a booking *)

(** C4, as the code has it. Whatever the table and the requested slot:
    when some stored booking overlaps the request in the sense of the
    overlap query of [add_booking] (start_time < requested end and
    end_time > requested start: more than an end point in common),
    [add_booking] raises [OverlappingBookingError] with a message naming
    the description of such a booking, the first in the table, and leaves
    the table as it was; when none does, it appends the booking under a
    fresh id. Creating [100,200] and then requesting [150,250] raises,
    naming the first booking, and the table still holds that one row.
    When the request and the stored bookings are on whole minutes, a
    request whose closed interval intersects that of a stored booking, in
    the specification's sense, is refused in the same way. *)
Theorem create_conflict_rejection :
  (forall (info : Info.t) (db : database),
     ((exists row, In row db /\
         start_time row < Info.end_time info /\
         Info.start_time info < end_time row) ->
      exists before existing after,
        db = before ++ existing :: after /\
        (start_time existing < Info.end_time info /\
         Info.start_time info < end_time existing) /\
        (forall row, In row before ->
           ~ (start_time row < Info.end_time info /\
              Info.start_time info < end_time row)) /\
        add_booking info db =
        (Raised (OverlappingBookingError
                   (String.append "A booking called '"
                      (String.append (description existing)
                         "' already exists during that time slot!"))),
         db))
     /\
     ((forall row, In row db ->
         ~ (start_time row < Info.end_time info /\
            Info.start_time info < end_time row)) ->
      add_booking info db =
      (Returned,
       db ++ [mkBooking (next_rowid db) (Info.start_time info)
                        (Info.end_time info) (Info.description info)
                        (Info.user_id info)])))
  /\
  (forall dur1 descr1 u1 dur2 descr2 u2,
     add_booking (Info.mk 100 dur1 200 descr1 u1) []
     = (Returned, [mkBooking 1 100 200 descr1 u1])
     /\
     add_booking (Info.mk 150 dur2 250 descr2 u2) [mkBooking 1 100 200 descr1 u1]
     = (Raised (OverlappingBookingError
                  (String.append "A booking called '"
                     (String.append descr1
                        "' already exists during that time slot!"))),
        [mkBooking 1 100 200 descr1 u1])
     /\
     List.length (snd (add_booking (Info.mk 150 dur2 250 descr2 u2)
                                   [mkBooking 1 100 200 descr1 u1])) = 1%nat)
  /\
  (forall (info : Info.t) (db : database),
     Info.start_time info mod 60 = 0 -> (Info.end_time info + 1) mod 60 = 0 ->
     rows_on_whole_minutes db ->
     (exists row, In row db /\
        ~ (start_time row > Info.end_time info \/
           end_time row < Info.start_time info)) ->
     exists existing,
       In existing db /\
       ~ (start_time existing > Info.end_time info \/
          end_time existing < Info.start_time info) /\
       add_booking info db =
       (Raised (OverlappingBookingError
                  (String.append "A booking called '"
                     (String.append (description existing)
                        "' already exists during that time slot!"))),
        db)).
Proof.
  assert (forall (info : Info.t) (db : database),
     (exists row, In row db /\
         start_time row < Info.end_time info /\
         Info.start_time info < end_time row) ->
      exists before existing after,
        db = before ++ existing :: after /\
        (start_time existing < Info.end_time info /\
         Info.start_time info < end_time existing) /\
        (forall row, In row before ->
           ~ (start_time row < Info.end_time info /\
              Info.start_time info < end_time row)) /\
        add_booking info db =
        (Raised (OverlappingBookingError
                   (String.append "A booking called '"
                      (String.append (description existing)
                         "' already exists during that time slot!"))),
         db)) as Hbusy.
  { intros info db (row & Hin & Hs & He).
    destruct (fetchone_select_found
                (overlaps_slot (Info.end_time info) (Info.start_time info))
                db row Hin) as [existing E].
    { apply overlaps_slot_true. lia. }
    destruct (fetchone_select_some _ _ _ E) as (before & after & Hdb & Hc & Hb).
    exists before, existing, after. repeat split; auto.
    - apply overlaps_slot_true in Hc. lia.
    - apply overlaps_slot_true in Hc. lia.
    - intros r Hr. apply overlaps_slot_false. auto.
    - unfold add_booking. now rewrite E. }
  split; [| split].
  - intros info db. split; [apply Hbusy | apply add_booking_free].
  - intros. repeat split.
  - intros info db Hstart Hend Hdb (row & Hin & Hclosed).
    destruct (Hdb row Hin) as [Hrs Hre].
    pose proof (minute_start_is_no_minute_end _ _ Hrs Hend).
    pose proof (minute_start_is_no_minute_end _ _ Hstart Hre).
    destruct (Hbusy info db) as (before & existing & after & -> & Hov & _ & Hadd).
    { exists row. split; [exact Hin | lia]. }
    exists existing. split; [apply in_elt | split; [lia | exact Hadd]].
Qed.

(** An instance of [create_conflict_rejection]: a request inside a stored
    slot is refused, a request after it is inserted. *)
Lemma create_conflict_rejection_witness :
  (exists before existing after,
     [mkBooking 1 0 3599 "dailies" "U1"; mkBooking 2 3600 7199 "review" "U2"]
     = before ++ existing :: after /\
     add_booking (sanitize_booking_input 3000 20 "grade" "U3")
       [mkBooking 1 0 3599 "dailies" "U1"; mkBooking 2 3600 7199 "review" "U2"]
     = (Raised (OverlappingBookingError
                  (String.append "A booking called '"
                     (String.append (description existing)
                        "' already exists during that time slot!"))),
        [mkBooking 1 0 3599 "dailies" "U1"; mkBooking 2 3600 7199 "review" "U2"]))
  /\
  add_booking (sanitize_booking_input 7200 30 "grade" "U3")
    [mkBooking 1 0 3599 "dailies" "U1"; mkBooking 2 3600 7199 "review" "U2"]
  = (Returned,
     [mkBooking 1 0 3599 "dailies" "U1"; mkBooking 2 3600 7199 "review" "U2";
      mkBooking 3 7200 8999 "grade" "U3"])
  /\
  (exists existing,
     add_booking (sanitize_booking_input 3540 1 "late" "U3")
       [mkBooking 1 0 3599 "dailies" "U1"; mkBooking 2 3600 7199 "review" "U2"]
     = (Raised (OverlappingBookingError
                  (String.append "A booking called '"
                     (String.append (description existing)
                        "' already exists during that time slot!"))),
        [mkBooking 1 0 3599 "dailies" "U1"; mkBooking 2 3600 7199 "review" "U2"])).
Proof.
  destruct create_conflict_rejection as (Hgen & _ & Hminutes).
  split; [| split].
  - destruct (proj1 (Hgen (sanitize_booking_input 3000 20 "grade" "U3")
                      [mkBooking 1 0 3599 "dailies" "U1";
                       mkBooking 2 3600 7199 "review" "U2"]))
      as (before & existing & after & Hdb & _ & _ & Hadd).
    + exists (mkBooking 2 3600 7199 "review" "U2"). simpl. split; [tauto | lia].
    + exists before, existing, after. split; [exact Hdb | exact Hadd].
  - apply (proj2 (Hgen (sanitize_booking_input 7200 30 "grade" "U3")
                   [mkBooking 1 0 3599 "dailies" "U1";
                    mkBooking 2 3600 7199 "review" "U2"])).
    simpl. intros row [<- | [<- | []]]; simpl; lia.
  - destruct (Hminutes (sanitize_booking_input 3540 1 "late" "U3")
                [mkBooking 1 0 3599 "dailies" "U1";
                 mkBooking 2 3600 7199 "review" "U2"])
      as (existing & _ & _ & Hadd).
    + reflexivity.
    + reflexivity.
    + intros row [<- | [<- | []]]; split; reflexivity.
    + exists (mkBooking 1 0 3599 "dailies" "U1"). simpl. split; [tauto | lia].
    + exists existing. exact Hadd.
Defined.

(** C4, as stated, fails for slots that touch: with [0,59] stored, a
    one-minute request at second 59 asks for [59,118], whose closed
    interval intersects [0,59] in the specification's sense, and it is
    inserted, not refused. *)
Lemma create_admits_touching_slot :
  add_booking (sanitize_booking_input 59 1 "second" "U2")
              [mkBooking 1 0 59 "first" "U1"]
  = (Returned, [mkBooking 1 0 59 "first" "U1"; mkBooking 2 59 118 "second" "U2"])
  /\
  spec_intervals_intersect (mkBooking 2 59 118 "second" "U2")
                           (mkBooking 1 0 59 "first" "U1") = true.
Proof. split; reflexivity. Qed.

(** ** Extending a booking *)

Lemma process_extending_not_found (user : string) (i m : Z) (db : database) :
  (forall row, In row db -> id row <> i) ->
  process_extending user i m db
  = mkHandled (AckErrors "extending_select" "Booking not found.") [] db.
Proof.
  intros Habs. unfold process_extending.
  destruct (fetchone (select_where (fun row => id row =? i) db))
    as [found|] eqn:Ef; [| reflexivity].
  apply fetchone_select_in in Ef. destruct Ef as [Hin Hid].
  apply Z.eqb_eq in Hid. now destruct (Habs found Hin).
Qed.

Lemma fetchone_by_id (db : database) (found : booking) :
  NoDup (map id db) -> In found db ->
  fetchone (select_where (fun row => id row =? id found) db) = Some found.
Proof.
  intros Hnd Hin.
  destruct (fetchone_select_found (fun row => id row =? id found) db found Hin)
    as [first E]; [apply Z.eqb_refl |].
  rewrite E. f_equal.
  apply fetchone_select_in in E. destruct E as [Hf Hid]. apply Z.eqb_eq in Hid.
  eapply unique_id_same_row; eauto.
Qed.

Lemma process_extending_found
  (user : string) (m : Z) (db : database) (found : booking) :
  NoDup (map id db) -> In found db ->
  let new_end_time := end_time found + m * 60 in
  ((exists other, In other db /\ id other <> id found /\
      start_time other < new_end_time /\ start_time found < end_time other) ->
   process_extending user (id found) m db
   = mkHandled
       (AckErrors "extending_select"
          "Cannot extend booking as it overlaps with another booking.")
       [] db)
  /\
  ((forall other, In other db -> id other <> id found ->
      ~ (start_time other < new_end_time /\ start_time found < end_time other)) ->
   process_extending user (id found) m db
   = mkHandled Ack [mkMessage user "Successfully extended booking."]
       (update_end_time new_end_time (id found) db)).
Proof.
  intros Hnd Hin new_end_time. unfold process_extending. cbv zeta.
  rewrite (fetchone_by_id db found Hnd Hin). fold new_end_time.
  destruct (fetchone
              (select_where
                 (fun row => negb (id row =? id found)
                             && overlaps_slot new_end_time (start_time found) row)
                 db)) as [other'|] eqn:Eo.
  - split; [reflexivity |].
    intros Hfree. exfalso.
    apply fetchone_select_in in Eo. destruct Eo as [Ho Hc].
    apply andb_true_iff in Hc. destruct Hc as [Hne Hov].
    apply negb_true_iff, Z.eqb_neq in Hne. apply overlaps_slot_true in Hov.
    apply (Hfree other' Ho Hne). lia.
  - split; [| reflexivity].
    intros (other & Ho & Hne & Hs & He). exfalso.
    rewrite fetchone_select_none in Eo. specialize (Eo other Ho). simpl in Eo.
    apply andb_false_iff in Eo. destruct Eo as [Eo | Eo].
    + apply negb_false_iff, Z.eqb_eq in Eo. contradiction.
    + apply overlaps_slot_false in Eo. apply Eo. lia.
Qed.

(** C5, as the code has it. An extend of an id that no row has is
    answered with the error "Booking not found." and writes nothing. For
    a stored booking (ids being unique) the new end is its end_time plus
    minutes*60; when another booking overlaps the extended slot in the
    sense of the overlap query (start_time < new end and end_time > start
    of the extended booking: more than an end point in common) the answer
    is the overlap error and nothing is written; otherwise end_time is
    set to the new end. With [0,99] and [200,299] stored, every extension
    of the first that brings its end to 200 or beyond is refused, and
    extending it by one minute, to end_time 159, succeeds. When the
    stored bookings are on whole minutes, an extension whose closed
    interval intersects that of another booking, in the specification's
    sense, is refused. *)
Theorem extend_behaviour :
  (forall (user : string) (i m : Z) (db : database),
     (forall row, In row db -> id row <> i) ->
     process_extending user i m db
     = mkHandled (AckErrors "extending_select" "Booking not found.") [] db)
  /\
  (forall (user : string) (m : Z) (db : database) (found : booking),
     NoDup (map id db) -> In found db ->
     ((exists other, In other db /\ id other <> id found /\
         start_time other < end_time found + m * 60 /\
         start_time found < end_time other) ->
      process_extending user (id found) m db
      = mkHandled
          (AckErrors "extending_select"
             "Cannot extend booking as it overlaps with another booking.")
          [] db)
     /\
     ((forall other, In other db -> id other <> id found ->
         ~ (start_time other < end_time found + m * 60 /\
            start_time found < end_time other)) ->
      process_extending user (id found) m db
      = mkHandled Ack [mkMessage user "Successfully extended booking."]
          (update_end_time (end_time found + m * 60) (id found) db)))
  /\
  (forall (user d1 u1 d2 u2 : string) (m : Z),
     (99 + m * 60 >= 200 ->
      process_extending user 1 m
        [mkBooking 1 0 99 d1 u1; mkBooking 2 200 299 d2 u2]
      = mkHandled
          (AckErrors "extending_select"
             "Cannot extend booking as it overlaps with another booking.")
          [] [mkBooking 1 0 99 d1 u1; mkBooking 2 200 299 d2 u2])
     /\
     process_extending user 1 1
       [mkBooking 1 0 99 d1 u1; mkBooking 2 200 299 d2 u2]
     = mkHandled Ack [mkMessage user "Successfully extended booking."]
         [mkBooking 1 0 159 d1 u1; mkBooking 2 200 299 d2 u2])
  /\
  (forall (user : string) (m : Z) (db : database) (found : booking),
     NoDup (map id db) -> In found db -> rows_on_whole_minutes db ->
     (exists other, In other db /\ id other <> id found /\
        ~ (start_time other > end_time found + m * 60 \/
           end_time other < start_time found)) ->
     process_extending user (id found) m db
     = mkHandled
         (AckErrors "extending_select"
            "Cannot extend booking as it overlaps with another booking.")
         [] db).
Proof.
  split; [| split; [| split]].
  - exact process_extending_not_found.
  - intros user m db found Hnd Hin.
    exact (process_extending_found user m db found Hnd Hin).
  - intros user d1 u1 d2 u2 m. split; [| reflexivity].
    intros Hreach.
    apply (proj1 (process_extending_found user m
                    [mkBooking 1 0 99 d1 u1; mkBooking 2 200 299 d2 u2]
                    (mkBooking 1 0 99 d1 u1)
                    ltac:(repeat constructor; simpl; intuition discriminate)
                    (or_introl eq_refl))).
    exists (mkBooking 2 200 299 d2 u2). cbn [In id start_time end_time].
    repeat split; auto; lia.
  - intros user m db found Hnd Hin Hdb (other & Ho & Hne & Hclosed).
    apply (proj1 (process_extending_found user m db found Hnd Hin)).
    destruct (Hdb other Ho) as [Hos Hoe]. destruct (Hdb found Hin) as [Hfs Hfe].
    assert ((end_time found + m * 60 + 1) mod 60 = 0) as Hnew.
    { replace (end_time found + m * 60 + 1) with (end_time found + 1 + m * 60)
        by lia.
      now rewrite Z.mod_add by lia. }
    pose proof (minute_start_is_no_minute_end _ _ Hos Hnew).
    pose proof (minute_start_is_no_minute_end _ _ Hfs Hoe).
    exists other. repeat split; auto; lia.
Qed.

(** An instance of [extend_behaviour]: an id that is not stored, an
    extension into the next booking, and an extension that fits. *)
Lemma extend_behaviour_witness :
  process_extending "U1" 9 30
    [mkBooking 1 0 3599 "dailies" "U1"; mkBooking 2 7200 10799 "review" "U2"]
  = mkHandled (AckErrors "extending_select" "Booking not found.") []
      [mkBooking 1 0 3599 "dailies" "U1"; mkBooking 2 7200 10799 "review" "U2"]
  /\
  process_extending "U1" 1 90
    [mkBooking 1 0 3599 "dailies" "U1"; mkBooking 2 7200 10799 "review" "U2"]
  = mkHandled
      (AckErrors "extending_select"
         "Cannot extend booking as it overlaps with another booking.")
      []
      [mkBooking 1 0 3599 "dailies" "U1"; mkBooking 2 7200 10799 "review" "U2"]
  /\
  process_extending "U1" 1 60
    [mkBooking 1 0 3599 "dailies" "U1"; mkBooking 2 7200 10799 "review" "U2"]
  = mkHandled Ack [mkMessage "U1" "Successfully extended booking."]
      [mkBooking 1 0 7199 "dailies" "U1"; mkBooking 2 7200 10799 "review" "U2"]
  /\
  process_extending "U1" 1 61
    [mkBooking 1 0 3599 "dailies" "U1"; mkBooking 2 7200 10799 "review" "U2"]
  = mkHandled
      (AckErrors "extending_select"
         "Cannot extend booking as it overlaps with another booking.")
      []
      [mkBooking 1 0 3599 "dailies" "U1"; mkBooking 2 7200 10799 "review" "U2"].
Proof.
  destruct extend_behaviour as (Habsent & Hfound & _ & Hminutes).
  assert (NoDup (map id [mkBooking 1 0 3599 "dailies" "U1";
                         mkBooking 2 7200 10799 "review" "U2"])) as Hnd.
  { repeat constructor; simpl; intuition discriminate. }
  split; [| split; [| split]].
  - apply Habsent. intros row [<- | [<- | []]]; simpl; lia.
  - apply (proj1 (Hfound "U1" 90 _ (mkBooking 1 0 3599 "dailies" "U1")
                    Hnd (or_introl eq_refl))).
    exists (mkBooking 2 7200 10799 "review" "U2"). simpl.
    repeat split; auto; lia.
  - apply (proj2 (Hfound "U1" 60 _ (mkBooking 1 0 3599 "dailies" "U1")
                    Hnd (or_introl eq_refl))).
    simpl. intros other [<- | [<- | []]]; simpl; lia.
  - apply (Hminutes "U1" 61 _ (mkBooking 1 0 3599 "dailies" "U1")
             Hnd (or_introl eq_refl)).
    + intros row [<- | [<- | []]]; split; reflexivity.
    + exists (mkBooking 2 7200 10799 "review" "U2"). simpl.
      repeat split; auto; lia.
Defined.

(** C5, as stated, fails in two places. With [0,59] and [119,178]
    stored, extending the first by one minute gives [0,119], whose closed
    interval intersects [119,178] in the specification's sense, and the
    extension is accepted and written, not refused. And in the claim's
    example, with [0,99] and [200,299] stored, no extension of the first
    booking leaves it with end_time 150, since an extension adds whole
    minutes: one minute gives 159 and two minutes are refused. *)
Lemma extend_claim_fails :
  (process_extending "U1" 1 1
     [mkBooking 1 0 59 "first" "U1"; mkBooking 2 119 178 "second" "U2"]
   = mkHandled Ack [mkMessage "U1" "Successfully extended booking."]
       [mkBooking 1 0 119 "first" "U1"; mkBooking 2 119 178 "second" "U2"]
   /\
   spec_intervals_intersect (mkBooking 1 0 119 "first" "U1")
                            (mkBooking 2 119 178 "second" "U2") = true)
  /\
  (forall (user : string) (m : Z) (row : booking),
     In row (store (process_extending user 1 m
                      [mkBooking 1 0 99 "first" "U1";
                       mkBooking 2 200 299 "second" "U2"])) ->
     id row = 1 -> end_time row <> 150)
  /\
  store (process_extending "U1" 1 1
           [mkBooking 1 0 99 "first" "U1"; mkBooking 2 200 299 "second" "U2"])
  = [mkBooking 1 0 159 "first" "U1"; mkBooking 2 200 299 "second" "U2"]
  /\
  store (process_extending "U1" 1 2
           [mkBooking 1 0 99 "first" "U1"; mkBooking 2 200 299 "second" "U2"])
  = [mkBooking 1 0 99 "first" "U1"; mkBooking 2 200 299 "second" "U2"].
Proof.
  split; [split; reflexivity |]. split; [| split; reflexivity].
  intros user m row.
  assert (NoDup (map id [mkBooking 1 0 99 "first" "U1";
                         mkBooking 2 200 299 "second" "U2"])) as Hnd.
  { repeat constructor; simpl; intuition discriminate. }
  pose proof (process_extending_found user m _ (mkBooking 1 0 99 "first" "U1")
                Hnd (or_introl eq_refl)) as [Hbusy Hfree].
  cbn [In id start_time end_time] in Hbusy, Hfree.
  destruct (Z_lt_dec 200 (99 + m * 60)) as [Hlt | Hge].
  - rewrite Hbusy.
    + cbn [store In]. intros [<- | [<- | []]]; cbn [id end_time]; lia.
    + exists (mkBooking 2 200 299 "second" "U2").
      cbn [id start_time end_time]. repeat split; auto; lia.
  - rewrite Hfree.
    + cbn [store update_end_time map id Z.eqb Pos.eqb In].
      intros [<- | [<- | []]]; unfold set_end_time; cbn [id end_time]; lia.
    + intros other [<- | [<- | []]]; cbn [id start_time end_time]; lia.
Qed.

Lemma Forall2_map_in {A B : Type} (R : A -> B -> Prop) (f : A -> B) (l : list A) :
  (forall x, In x l -> R x (f x)) -> Forall2 R l (map f l).
Proof.
  induction l as [|x l IH]; simpl; intros H; constructor.
  - apply H. now left.
  - apply IH. intros y Hy. apply H. now right.
Qed.

(** C6. When an extend of id [i] succeeds, the table keeps its rows in
    place; every row keeps its id, start_time, description and user_id; a
    row with another id is unchanged in all fields; and the row with id
    [i] (ids being unique) has its end_time moved by minutes*60. *)
Theorem extension_frame (user : string) (i m : Z) (db : database) :
  response (process_extending user i m db) = Ack ->
  Forall2
    (fun old new =>
       id new = id old /\ start_time new = start_time old /\
       description new = description old /\ user_id new = user_id old /\
       (id old <> i -> new = old) /\
       (id old = i -> NoDup (map id db) -> end_time new = end_time old + m * 60))
    db (store (process_extending user i m db)).
Proof.
  intros Hack.
  destruct (process_extending_ack _ _ _ _ Hack) as (found & Hin & Hid & _ & -> & _).
  cbn [store]. unfold update_end_time. apply Forall2_map_in.
  intros old Hold.
  destruct (Z.eqb_spec (id old) i) as [Heq | Hne]; cbn [id start_time
    end_time description user_id set_end_time].
  - repeat split; auto; try contradiction.
    intros _ Hnd. f_equal. f_equal.
    eapply unique_id_same_row; eauto. congruence.
  - repeat split; auto. contradiction.
Qed.

(** An instance of [extension_frame]: user U2 extends booking 1 by thirty
    minutes. *)
Lemma extension_frame_witness :
  Forall2
    (fun old new =>
       id new = id old /\ start_time new = start_time old /\
       description new = description old /\ user_id new = user_id old /\
       (id old <> 1 -> new = old) /\
       (id old = 1 ->
        NoDup (map id [mkBooking 1 0 3599 "dailies" "U1";
                       mkBooking 2 7200 10799 "review" "U2"]) ->
        end_time new = end_time old + 30 * 60))
    [mkBooking 1 0 3599 "dailies" "U1"; mkBooking 2 7200 10799 "review" "U2"]
    (store (process_extending "U2" 1 30
              [mkBooking 1 0 3599 "dailies" "U1";
               mkBooking 2 7200 10799 "review" "U2"])).
Proof.
  apply (extension_frame "U2" 1 30
           [mkBooking 1 0 3599 "dailies" "U1";
            mkBooking 2 7200 10799 "review" "U2"]).
  reflexivity.
Defined.

(** ** Cancelling a booking *)

Lemma delete_by_id_absent (i : Z) (db : database) :
  (forall row, In row db -> id row <> i) -> delete_by_id i db = db.
Proof.
  unfold delete_by_id. induction db as [|r db IH]; simpl; intros H; [reflexivity |].
  destruct (Z.eqb_spec (id r) i) as [Heq | Hne]; simpl.
  - destruct (H r (or_introl eq_refl) Heq).
  - f_equal. apply IH. intros row Hin. apply H. now right.
Qed.

(** C7. [process_unbooking] always acknowledges without error and tells
    the user the booking was removed. Afterwards the table holds exactly
    the rows with another id: when no row has the id the table is
    unchanged; when a row has it (ids being unique) that row is gone and
    the rows before and after it stay, in order. Cancelling again changes
    nothing. *)
Theorem idempotent_cancel (user : string) (i : Z) (db : database) :
  response (process_unbooking user i db) = Ack /\
  posted (process_unbooking user i db)
  = [mkMessage user "Successfully removed booking."] /\
  (forall row, In row (store (process_unbooking user i db)) <->
               In row db /\ id row <> i) /\
  ((forall row, In row db -> id row <> i) ->
   store (process_unbooking user i db) = db) /\
  (forall before row after,
     db = before ++ row :: after -> id row = i -> NoDup (map id db) ->
     store (process_unbooking user i db) = before ++ after) /\
  store (process_unbooking user i (store (process_unbooking user i db)))
  = store (process_unbooking user i db).
Proof.
  unfold process_unbooking. cbn [response posted store].
  split; [reflexivity | split; [reflexivity | split; [| split; [| split]]]].
  - intros row. apply in_delete_by_id.
  - apply delete_by_id_absent.
  - intros before row after -> Hid Hnd.
    rewrite map_app in Hnd. cbn [map] in Hnd.
    pose proof (NoDup_remove_2 _ _ _ Hnd) as Hfresh.
    unfold delete_by_id. rewrite filter_app. cbn [filter].
    rewrite Hid, Z.eqb_refl. cbn [negb].
    fold (delete_by_id i before). fold (delete_by_id i after).
    rewrite !delete_by_id_absent; [reflexivity | |].
    + intros r Hr Heq. apply Hfresh. apply in_or_app. right.
      rewrite Hid, <- Heq. now apply in_map.
    + intros r Hr Heq. apply Hfresh. apply in_or_app. left.
      rewrite Hid, <- Heq. now apply in_map.
  - apply delete_by_id_absent. intros row Hin.
    now apply in_delete_by_id in Hin.
Qed.

(** An instance of [idempotent_cancel]: cancelling an id that is not
    stored, and cancelling the booking in the middle of the table. *)
Lemma idempotent_cancel_witness :
  store (process_unbooking "U1" 9
           [mkBooking 1 0 59 "a" "U1"; mkBooking 2 60 119 "b" "U2"])
  = [mkBooking 1 0 59 "a" "U1"; mkBooking 2 60 119 "b" "U2"]
  /\
  store (process_unbooking "U1" 2
           [mkBooking 1 0 59 "a" "U1"; mkBooking 2 60 119 "b" "U2";
            mkBooking 3 120 179 "c" "U1"])
  = [mkBooking 1 0 59 "a" "U1"; mkBooking 3 120 179 "c" "U1"].
Proof.
  split.
  - apply (proj1 (proj2 (proj2 (proj2
             (idempotent_cancel "U1" 9
                [mkBooking 1 0 59 "a" "U1"; mkBooking 2 60 119 "b" "U2"]))))).
    intros row [<- | [<- | []]]; simpl; lia.
  - apply (proj1 (proj2 (proj2 (proj2 (proj2
             (idempotent_cancel "U1" 2
                [mkBooking 1 0 59 "a" "U1"; mkBooking 2 60 119 "b" "U2";
                 mkBooking 3 120 179 "c" "U1"]))))))
      with (before := [mkBooking 1 0 59 "a" "U1"])
           (row := mkBooking 2 60 119 "b" "U2").
    + reflexivity.
    + reflexivity.
    + repeat constructor; simpl; intuition discriminate.
Defined.

(** ** Who may cancel or extend *)

(** C10. The table, the acknowledgement and the texts posted by
    [process_unbooking] and [process_extending] do not depend on the user
    who submits the modal; only the channel of the confirmation does. So
    a user can delete or extend a booking of another user. *)
Theorem no_ownership_enforcement :
  (forall (u1 u2 : string) (i : Z) (db : database),
     store (process_unbooking u1 i db) = store (process_unbooking u2 i db) /\
     response (process_unbooking u1 i db) = response (process_unbooking u2 i db) /\
     map text (posted (process_unbooking u1 i db))
     = map text (posted (process_unbooking u2 i db)))
  /\
  (forall (u1 u2 : string) (i m : Z) (db : database),
     store (process_extending u1 i m db) = store (process_extending u2 i m db) /\
     response (process_extending u1 i m db)
     = response (process_extending u2 i m db) /\
     map text (posted (process_extending u1 i m db))
     = map text (posted (process_extending u2 i m db)))
  /\
  process_unbooking "bob" 1 [mkBooking 1 0 59 "dailies" "alice"]
  = mkHandled Ack [mkMessage "bob" "Successfully removed booking."] []
  /\
  process_extending "bob" 1 1 [mkBooking 1 0 59 "dailies" "alice"]
  = mkHandled Ack [mkMessage "bob" "Successfully extended booking."]
      [mkBooking 1 0 119 "dailies" "alice"].
Proof.
  split; [| split; [| split; reflexivity]].
  - intros. repeat split.
  - intros u1 u2 i m db. unfold process_extending. cbv zeta.
    destruct (fetchone (select_where (fun row => id row =? i) db)) as [found|];
      [| repeat split].
    destruct (fetchone (select_where _ db)); repeat split.
Qed.

(** ** Listing a user's future bookings *)

Lemma insert_by_start_time_permutation (row : booking) (sorted : list booking) :
  Permutation (row :: sorted) (insert_by_start_time row sorted).
Proof.
  induction sorted as [|r rest IH]; cbn [insert_by_start_time]; [reflexivity |].
  destruct (start_time row <=? start_time r); [reflexivity |].
  rewrite perm_swap. now constructor.
Qed.

Lemma order_by_start_time_permutation (rows : list booking) :
  Permutation rows (order_by_start_time rows).
Proof.
  unfold order_by_start_time.
  induction rows as [|row rest IH]; cbn [fold_right]; [constructor |].
  rewrite <- insert_by_start_time_permutation. now constructor.
Qed.

Lemma insert_by_start_time_sorted (row : booking) (sorted : list booking) :
  StronglySorted (fun a b => start_time a <= start_time b) sorted ->
  StronglySorted (fun a b => start_time a <= start_time b)
                 (insert_by_start_time row sorted).
Proof.
  induction 1 as [|r rest Hrest IH Hall]; cbn [insert_by_start_time].
  - repeat constructor.
  - destruct (Z.leb_spec (start_time row) (start_time r)) as [Hle | Hgt].
    + constructor; [now constructor |].
      constructor; [exact Hle |].
      eapply Forall_impl; [| exact Hall]. cbv beta. intros b Hb. lia.
    + constructor; [exact IH |].
      eapply Permutation_Forall; [apply insert_by_start_time_permutation |].
      constructor; [lia | exact Hall].
Qed.

Lemma order_by_start_time_sorted (rows : list booking) :
  StronglySorted (fun a b => start_time a <= start_time b)
                 (order_by_start_time rows).
Proof.
  unfold order_by_start_time.
  induction rows as [|row rest IH]; cbn [fold_right]; [constructor |].
  now apply insert_by_start_time_sorted.
Qed.

Lemma order_by_start_time_of_sorted (rows : list booking) :
  StronglySorted (fun a b => start_time a <= start_time b) rows ->
  order_by_start_time rows = rows.
Proof.
  unfold order_by_start_time.
  induction 1 as [|row rest Hrest IH Hall]; cbn [fold_right]; [reflexivity |].
  rewrite IH. destruct rest as [|r rest']; [reflexivity |].
  cbn [insert_by_start_time]. inversion_clear Hall as [|? ? Hle _].
  apply Z.leb_le in Hle. now rewrite Hle.
Qed.

(** Rows of equal start_time come out in scan order. *)
Example order_by_start_time_ties :
  order_by_start_time
    [mkBooking 1 60 119 "a" "U1"; mkBooking 2 60 119 "b" "U1";
     mkBooking 3 0 59 "c" "U1"; mkBooking 4 60 119 "d" "U1"]
  = [mkBooking 3 0 59 "c" "U1"; mkBooking 1 60 119 "a" "U1";
     mkBooking 2 60 119 "b" "U1"; mkBooking 4 60 119 "d" "U1"].
Proof. reflexivity. Qed.

Lemma in_order_by_start_time (rows : list booking) (row : booking) :
  In row (order_by_start_time rows) <-> In row rows.
Proof.
  split; intros H.
  - eapply Permutation_in; [| exact H].
    apply Permutation_sym, order_by_start_time_permutation.
  - eapply Permutation_in; [| exact H]. apply order_by_start_time_permutation.
Qed.

(** C8. [get_all_future_user_bookings] returns the rows of the user whose
    end_time is after the clock reading, each as often as the table has
    it, in ascending order of start_time: a booking that ended at or
    before the reading is left out, one of the user that ends one second
    after it is listed. *)
Theorem future_only_user_listing (user : string) (now : Z) (db : database) :
  (forall row, In row (get_all_future_user_bookings user now db) <->
               In row db /\ user_id row = user /\ end_time row > now) /\
  Permutation
    (filter (fun row => if string_dec (user_id row) user
                        then now <? end_time row else false) db)
    (get_all_future_user_bookings user now db) /\
  StronglySorted (fun a b => start_time a <= start_time b)
                 (get_all_future_user_bookings user now db) /\
  (forall row, end_time row <= now ->
               ~ In row (get_all_future_user_bookings user now db)) /\
  (forall row, In row db -> user_id row = user -> end_time row = now + 1 ->
               In row (get_all_future_user_bookings user now db)).
Proof.
  assert (forall row, In row (get_all_future_user_bookings user now db) <->
                      In row db /\ user_id row = user /\ end_time row > now) as Hin.
  { intros row. unfold get_all_future_user_bookings, select_where.
    rewrite in_order_by_start_time, filter_In, andb_true_iff.
    rewrite String.eqb_eq, Z.gtb_ltb, Z.ltb_lt. intuition lia. }
  split; [exact Hin | split; [| split; [| split]]].
  - unfold get_all_future_user_bookings, select_where.
    erewrite filter_ext; [apply order_by_start_time_permutation |].
    intros row. cbv beta. rewrite Z.gtb_ltb.
    destruct (string_dec (user_id row) user) as [Heq | Hne].
    + apply String.eqb_eq in Heq. now rewrite Heq.
    + apply String.eqb_neq in Hne. now rewrite Hne.
  - apply order_by_start_time_sorted.
  - intros row Hend Hrow. apply Hin in Hrow. lia.
  - intros row Hrow Huser Hend. apply Hin. repeat split; auto. lia.
Qed.

(** An instance of [future_only_user_listing]: at second 100, of the
    bookings of U1 the one that ended at 100 is left out and the one that
    ends at 101 is listed. *)
Lemma future_only_user_listing_witness :
  ~ In (mkBooking 1 0 100 "ended" "U1")
       (get_all_future_user_bookings "U1" 100
          [mkBooking 1 0 100 "ended" "U1"; mkBooking 2 500 559 "later" "U1";
           mkBooking 3 300 359 "other" "U2"; mkBooking 4 42 101 "ending" "U1"])
  /\
  In (mkBooking 4 42 101 "ending" "U1")
     (get_all_future_user_bookings "U1" 100
        [mkBooking 1 0 100 "ended" "U1"; mkBooking 2 500 559 "later" "U1";
         mkBooking 3 300 359 "other" "U2"; mkBooking 4 42 101 "ending" "U1"]).
Proof.
  split.
  - apply (proj1 (proj2 (proj2 (proj2
             (future_only_user_listing "U1" 100
                [mkBooking 1 0 100 "ended" "U1"; mkBooking 2 500 559 "later" "U1";
                 mkBooking 3 300 359 "other" "U2";
                 mkBooking 4 42 101 "ending" "U1"]))))).
    simpl. lia.
  - apply (proj2 (proj2 (proj2 (proj2
             (future_only_user_listing "U1" 100
                [mkBooking 1 0 100 "ended" "U1"; mkBooking 2 500 559 "later" "U1";
                 mkBooking 3 300 359 "other" "U2";
                 mkBooking 4 42 101 "ending" "U1"]))))).
    + simpl. tauto.
    + reflexivity.
    + reflexivity.
Defined.

(** The listing of the same table, evaluated. *)
Example future_listing_evaluated :
  get_all_future_user_bookings "U1" 100
    [mkBooking 1 0 100 "ended" "U1"; mkBooking 2 500 559 "later" "U1";
     mkBooking 3 300 359 "other" "U2"; mkBooking 4 42 101 "ending" "U1"]
  = [mkBooking 4 42 101 "ending" "U1"; mkBooking 2 500 559 "later" "U1"].
Proof. reflexivity. Qed.

(** ** The projection loop *)

Lemma is_none_option_map {A B : Type} (f : A -> B) (o : option A) :
  is_none (option_map f o) = is_none o.
Proof. now destruct o. Qed.

Lemma view_step_map {A B : Type} (f : A -> B) (q : nat -> booking -> A)
  (clock : nat -> Z) (i : nat) (row : booking) (v : view A) :
  view_step (fun j r => f (q j r)) clock i row (map_view f v)
  = map_view f (view_step q clock i row v).
Proof.
  unfold view_step. cbn [map_view current_booking first_coming_booking
                         second_coming_booking].
  rewrite !is_none_option_map.
  destruct (is_none (current_booking v) && in_range _ _ _); [reflexivity |].
  destruct (is_none (first_coming_booking v)); [reflexivity |].
  destruct (is_none (second_coming_booking v)); reflexivity.
Qed.

Lemma view_loop_map {A B : Type} (f : A -> B) (q : nat -> booking -> A)
  (clock : nat -> Z) (rows : list booking) :
  forall (i : nat) (v : view A),
    view_loop (fun j r => f (q j r)) clock i rows (map_view f v)
    = map_view f (view_loop q clock i rows v).
Proof.
  induction rows as [|row rest IH]; intros i v; cbn [view_loop]; [reflexivity |].
  now rewrite view_step_map, IH.
Qed.

Lemma fill_view_map {A B : Type} (f : A -> B) (q : nat -> booking -> A)
  (clock : nat -> Z) (rows : list booking) :
  fill_view (fun j r => f (q j r)) clock rows = map_view f (fill_view q clock rows).
Proof.
  unfold fill_view. destruct rows as [|row rest]; [reflexivity |].
  apply (view_loop_map f q clock (row :: rest) 0%nat (mkView None None None)).
Qed.

Lemma slot_from_weaken (rows : list booking) (n m : nat) (s : option (nat * booking)) :
  (n <= m)%nat -> slot_from rows n s -> slot_from rows m s.
Proof.
  intros Hle. destruct s as [[j row]|]; simpl; [| trivial].
  intros [Hlt Hnth]. split; [lia | exact Hnth].
Qed.

Lemma slot_from_fresh (rows : list booking) (n : nat) (row : booking)
  (s : option (nat * booking)) :
  slot_from rows n s ->
  distinct_slots (Some (n, row)) s /\ distinct_slots s (Some (n, row)).
Proof.
  destruct s as [[j r]|]; simpl; [| tauto]. intros [Hlt _]. lia.
Qed.

Lemma view_step_sources (clock : nat -> Z) (rows : list booking) (n : nat)
  (row : booking) (v : view (nat * booking)) :
  nth_error rows n = Some row ->
  sources_ok rows n v ->
  sources_ok rows (S n) (view_step (fun i r => (i, r)) clock n row v).
Proof.
  intros Hnth [Hc Hf Hs Hcf Hcs Hfs Hord].
  assert (slot_from rows (S n) (Some (n, row))) as Hnew by (simpl; split; [lia | auto]).
  assert (forall s, slot_from rows n s -> slot_from rows (S n) s) as Hw.
  { intros s. apply slot_from_weaken. lia. }
  pose proof (slot_from_fresh rows n row _ Hc) as [Hc1 Hc2].
  pose proof (slot_from_fresh rows n row _ Hf) as [Hf1 Hf2].
  pose proof (slot_from_fresh rows n row _ Hs) as [Hs1 Hs2].
  unfold view_step.
  destruct (is_none (current_booking v) && in_range _ _ _).
  { constructor; cbn [current_booking first_coming_booking second_coming_booking]; auto. }
  destruct (first_coming_booking v) as [first|] eqn:Ef; cbn [is_none].
  - destruct (second_coming_booking v) as [second|] eqn:Es; cbn [is_none].
    + constructor; cbn [current_booking first_coming_booking second_coming_booking];
        rewrite ?Ef, ?Es; auto.
    + constructor; cbn [current_booking first_coming_booking second_coming_booking];
        rewrite ?Ef; auto; discriminate.
  - constructor; cbn [current_booking first_coming_booking second_coming_booking];
      auto; discriminate.
Qed.

Lemma view_loop_sources (clock : nat -> Z) (rest : list booking) :
  forall (done : list booking) (v : view (nat * booking)),
    sources_ok (done ++ rest) (List.length done) v ->
    sources_ok (done ++ rest) (List.length (done ++ rest))
               (view_loop (fun i r => (i, r)) clock (List.length done) rest v).
Proof.
  induction rest as [|row rest IH]; intros done v Hok; cbn [view_loop].
  - now rewrite app_nil_r in *.
  - replace (done ++ row :: rest) with ((done ++ [row]) ++ rest) in *
      by (now rewrite <- app_assoc).
    replace (S (List.length done)) with (List.length (done ++ [row]))
      by (rewrite length_app; simpl; lia).
    apply IH. rewrite length_app. cbn [List.length]. rewrite Nat.add_1_r.
    apply view_step_sources; [| exact Hok].
    rewrite <- app_assoc. cbn [app].
    rewrite nth_error_app2 by lia. now rewrite Nat.sub_diag.
Qed.

Lemma slot_sources_ok (clock : nat -> Z) (rows : list booking) :
  sources_ok rows (List.length rows) (slot_sources clock rows).
Proof.
  assert (sources_ok rows 0 (mkView None None None)) as Hinit.
  { constructor; simpl; auto. }
  unfold slot_sources, fill_view. destruct rows as [|row rest]; [exact Hinit |].
  apply (view_loop_sources clock (row :: rest) [] _ Hinit).
Qed.

(** C9. The viewer document is the rendering of the rows recorded by
    [slot_sources]; each filled slot holds the row at the recorded
    position of the input; the second coming slot is filled only when the
    first coming slot is; and no position of the input fills two slots.
    This holds for every input list and every clock. *)
Theorem slot_order_invariant
  (fmt : Z -> Z -> string * string) (clock : nat -> Z) (rows : list booking) :
  bookings_to_view_json fmt clock rows
  = map_view (fun source => make_entry fmt (snd source)) (slot_sources clock rows)
  /\
  (forall slot j row,
     In slot [current_booking (slot_sources clock rows);
              first_coming_booking (slot_sources clock rows);
              second_coming_booking (slot_sources clock rows)] ->
     slot = Some (j, row) -> nth_error rows j = Some row)
  /\
  (second_coming_booking (bookings_to_view_json fmt clock rows) <> None ->
   first_coming_booking (bookings_to_view_json fmt clock rows) <> None)
  /\
  distinct_slots (current_booking (slot_sources clock rows))
                 (first_coming_booking (slot_sources clock rows))
  /\
  distinct_slots (current_booking (slot_sources clock rows))
                 (second_coming_booking (slot_sources clock rows))
  /\
  distinct_slots (first_coming_booking (slot_sources clock rows))
                 (second_coming_booking (slot_sources clock rows)).
Proof.
  assert (bookings_to_view_json fmt clock rows
          = map_view (fun source => make_entry fmt (snd source))
                     (slot_sources clock rows)) as Hmap.
  { unfold bookings_to_view_json, slot_sources.
    apply (fill_view_map (fun source => make_entry fmt (snd source))
                         (fun i r => (i, r)) clock rows). }
  destruct (slot_sources_ok clock rows) as [Hc Hf Hs Hcf Hcs Hfs Hord].
  split; [exact Hmap | split; [| split; [| repeat split; assumption]]].
  - intros slot j row [<- | [<- | [<- | []]]] Heq.
    + rewrite Heq in Hc. apply Hc.
    + rewrite Heq in Hf. apply Hf.
    + rewrite Heq in Hs. apply Hs.
  - rewrite Hmap. cbn [map_view first_coming_booking second_coming_booking].
    intros Hsecond Hfirst. apply Hsecond.
    destruct (first_coming_booking (slot_sources clock rows)); [discriminate |].
    now rewrite Hord.
Qed.

(** ** The projection against the specification *)

Lemma in_range_spec (x lo hi : Z) :
  in_range x lo hi = true <-> lo <= x < hi.
Proof. unfold in_range. rewrite andb_true_iff, Z.leb_le, Z.ltb_lt. tauto. Qed.

Lemma in_range_before_last_second (row : booking) (now : Z) :
  end_time row <> now ->
  in_range now (start_time row) (end_time row) = spec_interval_contains row now.
Proof.
  intros Hne. unfold in_range, spec_interval_contains. f_equal.
  destruct (Z.ltb_spec now (end_time row)), (Z.leb_spec now (end_time row));
    auto; lia.
Qed.

Lemma view_loop_agrees (fmt : Z -> Z -> string * string) (now : Z)
  (rows : list booking) :
  (forall row, In row rows -> end_time row <> now) ->
  forall (i : nat) (v : view booking),
    view_loop (fun _ row => make_entry fmt row) (fun _ => now) i rows
              (map_view (make_entry fmt) v)
    = map_view (make_entry fmt) (spec_project_from now rows v).
Proof.
  induction rows as [|row rest IH]; intros Hne i v;
    cbn [view_loop spec_project_from]; [reflexivity |].
  assert (forall r, In r rest -> end_time r <> now) as Hrest
    by (intros r Hr; apply Hne; now right).
  rewrite <- (IH Hrest (S i)). f_equal.
  unfold view_step.
  cbn [map_view current_booking first_coming_booking second_coming_booking].
  rewrite !is_none_option_map.
  rewrite in_range_before_last_second by (apply Hne; now left).
  destruct (is_none (current_booking v) && spec_interval_contains row now);
    [reflexivity |].
  destruct (is_none (first_coming_booking v)); [reflexivity |].
  destruct (is_none (second_coming_booking v)); [reflexivity |].
  now destruct v.
Qed.

(** For a clock that stands still at an instant that is not the last
    second of any listed booking, [bookings_to_view_json] renders the
    specification's projection. *)
Lemma projection_agrees_before_last_second
  (fmt : Z -> Z -> string * string) (now : Z) (rows : list booking) :
  (forall row, In row rows -> end_time row <> now) ->
  bookings_to_view_json fmt (fun _ => now) rows
  = map_view (make_entry fmt) (spec_project now rows).
Proof.
  intros Hne. unfold bookings_to_view_json, fill_view, spec_project.
  destruct rows as [|row rest]; [reflexivity |].
  apply (view_loop_agrees fmt now (row :: rest) Hne 0%nat (mkView None None None)).
Qed.

(** The example of the specification: with slots [T-10,T+10], [T+20,T+30]
    and [T+40,T+50] and the clock at T, the first booking is current and
    the other two are the first and second coming ones. *)
Lemma projection_example
  (fmt : Z -> Z -> string * string) (T : Z) (d1 u1 d2 u2 d3 u3 : string) :
  bookings_to_view_json fmt (fun _ => T)
    [mkBooking 1 (T - 10) (T + 10) d1 u1;
     mkBooking 2 (T + 20) (T + 30) d2 u2;
     mkBooking 3 (T + 40) (T + 50) d3 u3]
  = mkView (Some (make_entry fmt (mkBooking 1 (T - 10) (T + 10) d1 u1)))
           (Some (make_entry fmt (mkBooking 2 (T + 20) (T + 30) d2 u2)))
           (Some (make_entry fmt (mkBooking 3 (T + 40) (T + 50) d3 u3))).
Proof.
  unfold bookings_to_view_json, fill_view.
  cbn [view_loop]. unfold view_step.
  cbn [current_booking first_coming_booking second_coming_booking is_none
       start_time end_time andb].
  replace (in_range T (T - 10) (T + 10)) with true
    by (symmetry; apply in_range_spec; lia).
  reflexivity.
Qed.

(** C2, at the last second of a booking. A one-minute booking at second 0
    occupies [0,59]; with the clock at 59 its closed interval contains
    the instant and the specification's projection makes it current, but
    [bookings_to_view_json] leaves the current slot empty and shows the
    booking as the first coming one, because [range(start_time, end_time)]
    stops before end_time. *)
Theorem current_slot_misses_last_second (fmt : Z -> Z -> string * string) :
  sanitize_booking_input 0 1 "dailies" "U1" = Info.mk 0 1 59 "dailies" "U1" /\
  spec_interval_contains (mkBooking 1 0 59 "dailies" "U1") 59 = true /\
  spec_project 59 [mkBooking 1 0 59 "dailies" "U1"]
  = mkView (Some (mkBooking 1 0 59 "dailies" "U1")) None None /\
  bookings_to_view_json fmt (fun _ => 59) [mkBooking 1 0 59 "dailies" "U1"]
  = mkView None (Some (make_entry fmt (mkBooking 1 0 59 "dailies" "U1"))) None.
Proof. repeat split. Qed.

(** An instance of [projection_agrees_before_last_second]: in the middle
    of the first of two bookings. *)
Lemma projection_agrees_witness :
  bookings_to_view_json (fun _ _ => ("10:00", "11:00")) (fun _ => 1800)
    [mkBooking 1 0 3599 "dailies" "U1"; mkBooking 2 3600 7199 "review" "U2"]
  = map_view (make_entry (fun _ _ => ("10:00", "11:00")))
      (spec_project 1800
         [mkBooking 1 0 3599 "dailies" "U1"; mkBooking 2 3600 7199 "review" "U2"]).
Proof.
  apply (projection_agrees_before_last_second
           (fun _ _ => ("10:00", "11:00")) 1800
           [mkBooking 1 0 3599 "dailies" "U1"; mkBooking 2 3600 7199 "review" "U2"]).
  intros row [<- | [<- | []]]; simpl; lia.
Defined.

(** * The rest of the bot *)

(** ** Submitting the booking modal *)

Lemma add_booking_busy (info : Info.t) (db : database) :
  (exists row, In row db /\
     start_time row < Info.end_time info /\ Info.start_time info < end_time row) ->
  exists existing,
    In existing db /\
    (start_time existing < Info.end_time info /\
     Info.start_time info < end_time existing) /\
    add_booking info db =
    (Raised (OverlappingBookingError
               (String.append "A booking called '"
                  (String.append (description existing)
                     "' already exists during that time slot!"))),
     db).
Proof.
  intros (row & Hin & Hs & He).
  destruct (fetchone_select_found
              (overlaps_slot (Info.end_time info) (Info.start_time info))
              db row Hin) as [existing E].
  { apply overlaps_slot_true. lia. }
  exists existing. destruct (fetchone_select_in _ _ _ E) as [Hex Hc].
  apply overlaps_slot_true in Hc.
  repeat split; auto; try lia.
  unfold add_booking. now rewrite E.
Qed.

Lemma add_booking_cases (info : Info.t) (db : database) :
  (exists e, add_booking info db = (Raised e, db)) \/
  add_booking info db =
  (Returned,
   insert_booking (Info.start_time info) (Info.end_time info)
                  (Info.description info) (Info.user_id info) db).
Proof.
  unfold add_booking. destruct (fetchone _) as [existing|]; [left | right]; eauto.
Qed.

Lemma process_booking_ack (render : Z -> string) (s d : Z) (descr user : string)
  (db : database) :
  response (process_booking render s d descr user db) = Ack ->
  process_booking render s d descr user db
  = mkHandled Ack
      [mkMessage user
         (String.append "Successfully booked viewing on "
            (String.append (render s) "."))]
      (db ++ [mkBooking (next_rowid db) s (s + d * 60 - 1) descr user]).
Proof.
  unfold process_booking. cbv zeta.
  destruct (add_booking_cases (sanitize_booking_input s d descr user) db)
    as [[[msg] E] | E]; rewrite E; cbn [response]; [discriminate |].
  intros _. reflexivity.
Qed.

(** X3. [process_booking], from the values of the modal: when a stored
    booking overlaps the slot from the chosen start to the chosen start
    plus minutes*60 - 1 (its start_time is before the end of the slot and
    its end_time after the start), the submission is answered with an
    error on the block booking_datetime naming such a booking, nothing is
    posted and the table is unchanged; otherwise it is acknowledged, one
    confirmation goes to the submitting user, and the table gains one row
    at its end, owned by that user, under the next id. *)
Theorem process_booking_outcome
  (render : Z -> string) (s d : Z) (descr user : string) (db : database) :
  ((exists row, In row db /\ start_time row < s + d * 60 - 1 /\ s < end_time row) ->
   exists existing,
     In existing db /\
     (start_time existing < s + d * 60 - 1 /\ s < end_time existing) /\
     process_booking render s d descr user db
     = mkHandled
         (AckErrors "booking_datetime"
            (String.append "A booking called '"
               (String.append (description existing)
                  "' already exists during that time slot!")))
         [] db)
  /\
  ((forall row, In row db ->
      ~ (start_time row < s + d * 60 - 1 /\ s < end_time row)) ->
   process_booking render s d descr user db
   = mkHandled Ack
       [mkMessage user
          (String.append "Successfully booked viewing on "
             (String.append (render s) "."))]
       (db ++ [mkBooking (next_rowid db) s (s + d * 60 - 1) descr user])).
Proof.
  split.
  - intros Hbusy.
    destruct (add_booking_busy (sanitize_booking_input s d descr user) db Hbusy)
      as (existing & Hin & Hov & E).
    exists existing. repeat split; try apply Hov; auto.
    unfold process_booking. cbv zeta. now rewrite E.
  - intros Hfree. unfold process_booking. cbv zeta.
    now rewrite (add_booking_free (sanitize_booking_input s d descr user) db Hfree).
Qed.

(** An instance of [process_booking_outcome]: a slot inside a stored
    booking, and the slot right after it. *)
Lemma process_booking_outcome_witness :
  (exists existing,
     process_booking (fun _ => "May 01: 10:00") 1800 30 "grade" "U2"
       [mkBooking 1 0 3599 "dailies" "U1"]
     = mkHandled
         (AckErrors "booking_datetime"
            (String.append "A booking called '"
               (String.append (description existing)
                  "' already exists during that time slot!")))
         [] [mkBooking 1 0 3599 "dailies" "U1"])
  /\
  process_booking (fun _ => "May 01: 10:00") 3600 30 "grade" "U2"
    [mkBooking 1 0 3599 "dailies" "U1"]
  = mkHandled Ack
      [mkMessage "U2" "Successfully booked viewing on May 01: 10:00."]
      [mkBooking 1 0 3599 "dailies" "U1"; mkBooking 2 3600 5399 "grade" "U2"].
Proof.
  split.
  - destruct (proj1 (process_booking_outcome (fun _ => "May 01: 10:00")
                       1800 30 "grade" "U2" [mkBooking 1 0 3599 "dailies" "U1"]))
      as (existing & _ & _ & E).
    + exists (mkBooking 1 0 3599 "dailies" "U1"). simpl. split; [tauto | lia].
    + exists existing. exact E.
  - apply (proj2 (process_booking_outcome (fun _ => "May 01: 10:00")
                    3600 30 "grade" "U2" [mkBooking 1 0 3599 "dailies" "U1"])).
    intros row [<- | []]. simpl. lia.
Defined.

(** ** Creating, cancelling and listing together *)

Lemma delete_by_id_fresh_row (db : database) (s e : Z) (d u : string) :
  delete_by_id (next_rowid db) (db ++ [mkBooking (next_rowid db) s e d u]) = db.
Proof.
  unfold delete_by_id. rewrite filter_app. cbn [filter id].
  rewrite Z.eqb_refl. cbn [negb]. rewrite app_nil_r.
  apply (delete_by_id_absent (next_rowid db) db).
  intros row Hin. pose proof (next_rowid_fresh db row Hin). lia.
Qed.

(** X4. When a booking submission is accepted, cancelling the id it was
    given, by any user, gives back the table as it was before the
    submission. *)
Theorem create_then_cancel
  (render : Z -> string) (s d : Z) (descr user canceller : string)
  (db : database) :
  response (process_booking render s d descr user db) = Ack ->
  exists created,
    store (process_booking render s d descr user db) = db ++ [created] /\
    store (process_unbooking canceller (id created)
             (store (process_booking render s d descr user db))) = db.
Proof.
  intros Hack. rewrite (process_booking_ack render s d descr user db Hack).
  cbn [store process_unbooking].
  exists (mkBooking (next_rowid db) s (s + d * 60 - 1) descr user).
  split; [reflexivity | apply delete_by_id_fresh_row].
Qed.

(** An instance of [create_then_cancel]. *)
Lemma create_then_cancel_witness :
  exists created,
    store (process_booking (fun _ => "May 01: 10:00") 3600 30 "grade" "U2"
             [mkBooking 1 0 3599 "dailies" "U1"; mkBooking 4 9000 9059 "sync" "U3"])
    = [mkBooking 1 0 3599 "dailies" "U1"; mkBooking 4 9000 9059 "sync" "U3"]
      ++ [created] /\
    store (process_unbooking "U1" (id created)
             (store (process_booking (fun _ => "May 01: 10:00") 3600 30 "grade" "U2"
                       [mkBooking 1 0 3599 "dailies" "U1";
                        mkBooking 4 9000 9059 "sync" "U3"])))
    = [mkBooking 1 0 3599 "dailies" "U1"; mkBooking 4 9000 9059 "sync" "U3"].
Proof.
  apply (create_then_cancel (fun _ => "May 01: 10:00") 3600 30 "grade" "U2" "U1"
           [mkBooking 1 0 3599 "dailies" "U1"; mkBooking 4 9000 9059 "sync" "U3"]).
  reflexivity.
Defined.

Lemma future_listing_of_other_user (user other : string) (now : Z)
  (db : database) (s e : Z) (d : string) (i : Z) :
  other <> user ->
  get_all_future_user_bookings other now (db ++ [mkBooking i s e d user])
  = get_all_future_user_bookings other now db.
Proof.
  intros Hne. unfold get_all_future_user_bookings, select_where.
  rewrite filter_app. cbn [filter user_id].
  apply not_eq_sym in Hne. apply String.eqb_neq in Hne.
  rewrite Hne. cbn [andb]. now rewrite app_nil_r.
Qed.

Lemma in_future_listing (user : string) (now : Z) (db : database) (row : booking) :
  In row (get_all_future_user_bookings user now db) <->
  In row db /\ user_id row = user /\ end_time row > now.
Proof.
  unfold get_all_future_user_bookings, select_where.
  rewrite in_order_by_start_time, filter_In, andb_true_iff.
  rewrite String.eqb_eq, Z.gtb_ltb, Z.ltb_lt. intuition lia.
Qed.

(** X5. After an accepted booking submission the new booking is in the
    submitting user's list of future bookings as long as its last second
    is after the clock reading, and the list of every other user is what
    it was. *)
Theorem created_booking_is_listed
  (render : Z -> string) (s d : Z) (descr user : string) (now : Z)
  (db : database) :
  response (process_booking render s d descr user db) = Ack ->
  (s + d * 60 - 1 > now ->
   In (mkBooking (next_rowid db) s (s + d * 60 - 1) descr user)
      (get_all_future_user_bookings user now
         (store (process_booking render s d descr user db))))
  /\
  (forall other, other <> user ->
     get_all_future_user_bookings other now
       (store (process_booking render s d descr user db))
     = get_all_future_user_bookings other now db).
Proof.
  intros Hack. rewrite (process_booking_ack render s d descr user db Hack).
  cbn [store]. split.
  - intros Hend. apply in_future_listing. cbn [user_id end_time].
    repeat split; auto. apply in_or_app. right. now left.
  - intros other Hne. now apply future_listing_of_other_user.
Qed.

(** An instance of [created_booking_is_listed]. *)
Lemma created_booking_is_listed_witness :
  In (mkBooking 2 3600 5399 "grade" "U2")
     (get_all_future_user_bookings "U2" 4000
        (store (process_booking (fun _ => "May 01: 10:00") 3600 30 "grade" "U2"
                  [mkBooking 1 0 3599 "dailies" "U1"])))
  /\
  get_all_future_user_bookings "U1" 100
    (store (process_booking (fun _ => "May 01: 10:00") 3600 30 "grade" "U2"
              [mkBooking 1 0 3599 "dailies" "U1"]))
  = get_all_future_user_bookings "U1" 100 [mkBooking 1 0 3599 "dailies" "U1"].
Proof.
  split.
  - apply (proj1 (created_booking_is_listed (fun _ => "May 01: 10:00")
                    3600 30 "grade" "U2" 4000
                    [mkBooking 1 0 3599 "dailies" "U1"] eq_refl)).
    lia.
  - apply (proj2 (created_booking_is_listed (fun _ => "May 01: 10:00")
                    3600 30 "grade" "U2" 100
                    [mkBooking 1 0 3599 "dailies" "U1"] eq_refl)).
    discriminate.
Defined.

(** X6. After a cancel of id [i], whoever submits it, the list of future
    bookings of every user is the former list without the booking of id
    [i]. *)
Theorem cancelled_booking_not_listed
  (canceller user : string) (i now : Z) (db : database) (row : booking) :
  In row (get_all_future_user_bookings user now
            (store (process_unbooking canceller i db))) <->
  In row (get_all_future_user_bookings user now db) /\ id row <> i.
Proof.
  cbn [process_unbooking store].
  rewrite !in_future_listing, in_delete_by_id. tauto.
Qed.

(** ** Any sequence of submissions *)

Lemma table_after_cases (op : operation) (db : database) :
  table_after op db = db \/ apply_operation op db = Some (table_after op db).
Proof.
  destruct op as [info | user i m | user i]; cbn [table_after apply_operation].
  - destruct (add_booking_cases info db) as [[e E] | E]; rewrite E; auto.
  - destruct (response (process_extending user i m db)) eqn:E; [now right | left].
    unfold process_extending in *. cbv zeta in *.
    destruct (fetchone (select_where (fun row => id row =? i) db)) as [found|];
      [| reflexivity].
    destruct (fetchone (select_where _ db)); [reflexivity | discriminate].
  - now right.
Qed.

Lemma table_after_all_keeps (P : database -> Prop) (ops : list operation) :
  (forall op db, P db -> P (table_after op db)) ->
  forall db, P db -> P (table_after_all ops db).
Proof.
  intros Hstep. unfold table_after_all.
  induction ops as [|op ops IH]; intros db Hdb; cbn [fold_left]; auto.
Qed.

(** X7. Whatever is submitted, in whatever order, accepted or refused:
    creates, extends and cancels applied to a table with unique ids in
    which no two bookings overlap (a.start < b.end and b.start < a.end
    never both hold for two rows) leave a table with unique ids in which
    no two bookings overlap. A refused submission ([add_booking] raises,
    or [process_extending] answers with errors) leaves the table as it
    was, and an accepted one leaves the table of the accepted operation. *)
Theorem no_overlap_after_any_submissions (ops : list operation) (db : database) :
  NoDup (map id db) -> pairwise_disjoint db ->
  NoDup (map id (table_after_all ops db)) /\
  pairwise_disjoint (table_after_all ops db) /\
  (forall op table, apply_operation op table = None ->
                    table_after op table = table) /\
  (forall op table table', apply_operation op table = Some table' ->
                           table_after op table = table').
Proof.
  intros Hnd Hdis.
  assert (NoDup (map id (table_after_all ops db)) /\
          pairwise_disjoint (table_after_all ops db)) as [Hnd' Hdis'].
  { apply (table_after_all_keeps
             (fun table => NoDup (map id table) /\ pairwise_disjoint table) ops);
      [| now split].
    intros op table Hinv.
    destruct (table_after_cases op table) as [-> | Happ]; [exact Hinv |].
    exact (apply_operation_invariant op table _ Happ Hinv). }
  split; [exact Hnd' | split; [exact Hdis' | split]].
  - intros op table Hrefused.
    destruct (table_after_cases op table) as [E | E]; [exact E | congruence].
  - intros op table table' Haccepted.
    destruct op as [info | user i m | user i];
      cbn [table_after apply_operation] in *.
    + destruct (add_booking info table) as [[|e] t]; cbn [snd]; congruence.
    + destruct (response (process_extending user i m table)); congruence.
    + destruct (response (process_unbooking user i table)); congruence.
Qed.

(** An instance of [no_overlap_after_any_submissions]: on a table of two
    bookings, a refused create, an accepted one, a refused extend and a
    cancel. *)
Lemma no_overlap_after_any_submissions_witness :
  table_after_all
    [Create (sanitize_booking_input 60 2 "clash" "U3");
     Create (sanitize_booking_input 240 1 "grade" "U3");
     Extend "U1" 5 3;
     Cancel "U2" 7]
    [mkBooking 5 0 119 "dailies" "U1"; mkBooking 7 120 239 "review" "U2"]
  = [mkBooking 5 0 119 "dailies" "U1"; mkBooking 8 240 299 "grade" "U3"]
  /\
  pairwise_disjoint
    (table_after_all
       [Create (sanitize_booking_input 60 2 "clash" "U3");
        Create (sanitize_booking_input 240 1 "grade" "U3");
        Extend "U1" 5 3;
        Cancel "U2" 7]
       [mkBooking 5 0 119 "dailies" "U1"; mkBooking 7 120 239 "review" "U2"])
  /\
  table_after (Create (sanitize_booking_input 60 2 "clash" "U3"))
    [mkBooking 5 0 119 "dailies" "U1"; mkBooking 7 120 239 "review" "U2"]
  = [mkBooking 5 0 119 "dailies" "U1"; mkBooking 7 120 239 "review" "U2"]
  /\
  table_after (Extend "U1" 5 3)
    [mkBooking 5 0 119 "dailies" "U1"; mkBooking 7 120 239 "review" "U2"]
  = [mkBooking 5 0 119 "dailies" "U1"; mkBooking 7 120 239 "review" "U2"].
Proof.
  destruct (no_overlap_after_any_submissions
              [Create (sanitize_booking_input 60 2 "clash" "U3");
               Create (sanitize_booking_input 240 1 "grade" "U3");
               Extend "U1" 5 3;
               Cancel "U2" 7]
              [mkBooking 5 0 119 "dailies" "U1"; mkBooking 7 120 239 "review" "U2"])
    as (_ & Hdis & Hrefused & _).
  - repeat constructor; simpl; intuition discriminate.
  - intros a b [<- | [<- | []]] [<- | [<- | []]]; simpl; lia.
  - split; [reflexivity | split; [exact Hdis | split]].
    + apply Hrefused. reflexivity.
    + apply Hrefused. reflexivity.
Defined.

Lemma rowid_ordered_bound (db : database) (row : booking) (bound : Z) :
  (forall r, In r db -> id r < bound) -> id row = bound ->
  rowid_ordered db -> rowid_ordered (db ++ [row]).
Proof.
  intros Hb Hid. unfold rowid_ordered.
  induction 1 as [|a l Hl IH Hall]; cbn [app].
  - repeat constructor.
  - constructor.
    + apply IH. intros r Hr. apply Hb. now right.
    + apply Forall_app. split; [exact Hall |].
      constructor; [| constructor]. rewrite Hid. apply Hb. now left.
Qed.

Lemma rowid_ordered_update (e i : Z) (db : database) :
  rowid_ordered db -> rowid_ordered (update_end_time e i db).
Proof.
  unfold rowid_ordered, update_end_time.
  induction 1 as [|a l Hl IH Hall]; cbn [map]; constructor; auto.
  apply Forall_map. eapply Forall_impl; [| exact Hall].
  intros b Hab. cbv beta.
  destruct (id a =? i), (id b =? i); exact Hab.
Qed.

Lemma rowid_ordered_delete (i : Z) (db : database) :
  rowid_ordered db -> rowid_ordered (delete_by_id i db).
Proof.
  unfold rowid_ordered, delete_by_id.
  induction 1 as [|a l Hl IH Hall]; cbn [filter]; [constructor |].
  destruct (negb (id a =? i)); auto.
  constructor; auto.
  apply Forall_forall. intros b Hb. apply filter_In in Hb.
  rewrite Forall_forall in Hall. apply Hall. tauto.
Qed.

(** X8. The table stays in rowid order: whatever is submitted, accepted
    or refused, a table whose rows are in strictly ascending order of id
    is left in strictly ascending order of id; a created row goes to the
    end under an id larger than every id in use. *)
Theorem rowid_order_kept (ops : list operation) (db : database) :
  rowid_ordered db -> rowid_ordered (table_after_all ops db).
Proof.
  apply (table_after_all_keeps rowid_ordered ops).
  intros op table Hord.
  destruct op as [info | user i m | user i]; cbn [table_after].
  - destruct (add_booking_cases info table) as [[e E] | E]; rewrite E; cbn [snd];
      [exact Hord |].
    unfold insert_booking.
    apply (rowid_ordered_bound table _ (next_rowid table)); auto.
    intros r Hr. now apply next_rowid_fresh.
  - destruct (table_after_cases (Extend user i m) table) as [E | E];
      cbn [table_after apply_operation] in E; [now rewrite E |].
    destruct (response (process_extending user i m table)) eqn:Hack;
      [| discriminate].
    destruct (process_extending_ack _ _ _ _ Hack) as (found & _ & _ & _ & -> & _).
    cbn [store]. now apply rowid_ordered_update.
  - cbn [process_unbooking store]. now apply rowid_ordered_delete.
Qed.

(** An instance of [rowid_order_kept]. *)
Lemma rowid_order_kept_witness :
  rowid_ordered
    (table_after_all
       [Create (sanitize_booking_input 240 1 "grade" "U3");
        Cancel "U2" 5;
        Create (sanitize_booking_input 0 1 "early" "U1")]
       [mkBooking 5 0 119 "dailies" "U1"; mkBooking 7 120 239 "review" "U2"]).
Proof.
  apply (rowid_order_kept
           [Create (sanitize_booking_input 240 1 "grade" "U3");
            Cancel "U2" 5;
            Create (sanitize_booking_input 0 1 "early" "U1")]
           [mkBooking 5 0 119 "dailies" "U1"; mkBooking 7 120 239 "review" "U2"]).
  unfold rowid_ordered. repeat constructor; simpl; lia.
Defined.

(** ** The query behind the viewer *)

Lemma StronglySorted_app_le {A : Type} (R : A -> A -> Prop) (l1 l2 : list A) :
  StronglySorted R (l1 ++ l2) ->
  forall a b, In a l1 -> In b l2 -> R a b.
Proof.
  induction l1 as [|x l1 IH]; cbn [app]; intros Hs a b Ha Hb; [destruct Ha |].
  inversion_clear Hs as [|? ? Hrest Hall].
  destruct Ha as [<- | Ha].
  - rewrite Forall_forall in Hall. apply Hall. apply in_or_app. now right.
  - now apply IH.
Qed.

Lemma in_firstn {A : Type} (n : nat) (l : list A) (x : A) :
  In x (firstn n l) -> In x l.
Proof.
  intros H. rewrite <- (firstn_skipn n l). apply in_or_app. now left.
Qed.

Lemma StronglySorted_firstn {A : Type} (R : A -> A -> Prop) (n : nat) (l : list A) :
  StronglySorted R l -> StronglySorted R (firstn n l).
Proof.
  intros Hs. revert n. induction Hs as [|a l Hl IH Hall]; intros [|n];
    cbn [firstn]; constructor; auto.
  apply Forall_forall. intros b Hb. rewrite Forall_forall in Hall.
  apply Hall. eapply in_firstn; eauto.
Qed.

(** X9. [get_current_three_bookings] returns at most three rows, in
    ascending order of start_time, each a row of the table that ends at
    or after the clock reading and starts at or before the end of the
    day; and it returns the earliest such rows: when a row of the table
    that qualifies is not returned, three rows are returned and each of
    them starts no later than that row. *)
Theorem current_three_bookings_are_earliest
  (now today_end : Z) (db : database) :
  (List.length (get_current_three_bookings now today_end db) <= 3)%nat /\
  StronglySorted (fun a b => start_time a <= start_time b)
                 (get_current_three_bookings now today_end db) /\
  (forall row, In row (get_current_three_bookings now today_end db) ->
     In row db /\ end_time row >= now /\ start_time row <= today_end) /\
  (forall row, In row db -> end_time row >= now -> start_time row <= today_end ->
     ~ In row (get_current_three_bookings now today_end db) ->
     List.length (get_current_three_bookings now today_end db) = 3%nat /\
     forall listed, In listed (get_current_three_bookings now today_end db) ->
       start_time listed <= start_time row).
Proof.
  unfold get_current_three_bookings.
  set (cond := fun row : booking =>
                 (end_time row >=? now) && (start_time row <=? today_end)).
  set (sorted := order_by_start_time (select_where cond db)).
  assert (StronglySorted (fun a b => start_time a <= start_time b) sorted) as Hs
    by apply order_by_start_time_sorted.
  assert (forall row, In row sorted <->
            In row db /\ end_time row >= now /\ start_time row <= today_end) as Hin.
  { intros row. unfold sorted, select_where, cond.
    rewrite in_order_by_start_time, filter_In, andb_true_iff.
    rewrite Z.geb_leb, !Z.leb_le. intuition lia. }
  split; [apply firstn_le_length | split; [| split]].
  - now apply StronglySorted_firstn.
  - intros row Hrow. apply Hin. eapply in_firstn; eauto.
  - intros row Hdb Hend Hstart Hnot.
    assert (In row sorted) as Hrow by (apply Hin; auto).
    rewrite <- (firstn_skipn 3 sorted) in Hrow, Hs.
    apply in_app_or in Hrow. destruct Hrow as [Hrow | Hrow]; [contradiction |].
    split.
    + apply firstn_length_le.
      destruct (Nat.le_gt_cases 3 (List.length sorted)) as [Hle | Hlt]; [exact Hle |].
      rewrite skipn_all2 in Hrow by lia. destruct Hrow.
    + intros listed Hl. now apply (StronglySorted_app_le _ _ _ Hs).
Qed.

(** An instance of [current_three_bookings_are_earliest]: of four
    bookings still to come today the latest is not returned. *)
Lemma current_three_bookings_witness :
  get_current_three_bookings 100 86399
    [mkBooking 1 0 59 "past" "U1"; mkBooking 2 600 659 "c" "U1";
     mkBooking 3 60 179 "a" "U2"; mkBooking 4 900 959 "d" "U3";
     mkBooking 5 300 359 "b" "U2"; mkBooking 6 90000 90059 "tomorrow" "U2"]
  = [mkBooking 3 60 179 "a" "U2"; mkBooking 5 300 359 "b" "U2";
     mkBooking 2 600 659 "c" "U1"]
  /\
  forall listed,
    In listed
       (get_current_three_bookings 100 86399
          [mkBooking 1 0 59 "past" "U1"; mkBooking 2 600 659 "c" "U1";
           mkBooking 3 60 179 "a" "U2"; mkBooking 4 900 959 "d" "U3";
           mkBooking 5 300 359 "b" "U2"; mkBooking 6 90000 90059 "tomorrow" "U2"]) ->
    start_time listed <= 900.
Proof.
  split; [reflexivity |].
  apply (proj2 (proj2 (proj2
           (current_three_bookings_are_earliest 100 86399
              [mkBooking 1 0 59 "past" "U1"; mkBooking 2 600 659 "c" "U1";
               mkBooking 3 60 179 "a" "U2"; mkBooking 4 900 959 "d" "U3";
               mkBooking 5 300 359 "b" "U2";
               mkBooking 6 90000 90059 "tomorrow" "U2"])))
           (mkBooking 4 900 959 "d" "U3")).
  - simpl. tauto.
  - simpl. lia.
  - simpl. lia.
  - intros [H | [H | [H | []]]]; discriminate.
Defined.

(** ** What the viewer shows as current *)

Lemma view_step_current_running (clock : nat -> Z) (i : nat) (row : booking)
  (v : view (nat * booking)) :
  (forall j r, current_booking v = Some (j, r) ->
     in_range (clock j) (start_time r) (end_time r) = true) ->
  forall j r,
    current_booking (view_step (fun k x => (k, x)) clock i row v) = Some (j, r) ->
    in_range (clock j) (start_time r) (end_time r) = true.
Proof.
  intros Hv j r. unfold view_step.
  destruct (is_none (current_booking v)
            && in_range (clock i) (start_time row) (end_time row)) eqn:E.
  - cbn [current_booking]. intros [= <- <-].
    now apply andb_true_iff in E.
  - destruct (is_none (first_coming_booking v));
      [| destruct (is_none (second_coming_booking v))];
      cbn [current_booking]; apply Hv.
Qed.

Lemma view_loop_current_running (clock : nat -> Z) (rows : list booking) :
  forall (i : nat) (v : view (nat * booking)),
    (forall j r, current_booking v = Some (j, r) ->
       in_range (clock j) (start_time r) (end_time r) = true) ->
    forall j r,
      current_booking (view_loop (fun k x => (k, x)) clock i rows v) = Some (j, r) ->
      in_range (clock j) (start_time r) (end_time r) = true.
Proof.
  induction rows as [|row rest IH]; intros i v Hv; cbn [view_loop]; [exact Hv |].
  apply IH. now apply view_step_current_running.
Qed.

(** X10. Whatever list and clock [bookings_to_view_json] is given, the
    entry in its current slot is the entry of a row of the list that was
    running when the loop read the clock for it: start_time <= reading <
    end_time. *)
Theorem current_slot_holds_a_running_booking
  (fmt : Z -> Z -> string * string) (clock : nat -> Z) (rows : list booking)
  (entry : view_entry) :
  current_booking (bookings_to_view_json fmt clock rows) = Some entry ->
  exists j row,
    nth_error rows j = Some row /\ entry = make_entry fmt row /\
    start_time row <= clock j < end_time row.
Proof.
  assert (bookings_to_view_json fmt clock rows
          = map_view (fun source => make_entry fmt (snd source))
                     (slot_sources clock rows)) as ->.
  { unfold bookings_to_view_json, slot_sources.
    apply (fill_view_map (fun source => make_entry fmt (snd source))
                         (fun i r => (i, r)) clock rows). }
  cbn [map_view current_booking].
  destruct (current_booking (slot_sources clock rows)) as [[j row]|] eqn:E;
    [| discriminate].
  cbn [option_map snd]. intros [= <-]. exists j, row.
  pose proof (current_from _ _ _ (slot_sources_ok clock rows)) as Hfrom.
  rewrite E in Hfrom. destruct Hfrom as [_ Hnth].
  split; [exact Hnth | split; [reflexivity |]].
  apply in_range_spec.
  assert (forall j r, current_booking (slot_sources clock rows) = Some (j, r) ->
            in_range (clock j) (start_time r) (end_time r) = true) as Hrun.
  { unfold slot_sources, fill_view. destruct rows as [|r0 rest]; [discriminate |].
    apply view_loop_current_running. discriminate. }
  now apply Hrun.
Qed.

(** An instance of [current_slot_holds_a_running_booking]. *)
Lemma current_slot_witness :
  exists j row,
    nth_error [mkBooking 1 0 59 "past" "U1"; mkBooking 2 60 179 "now" "U2"] j
    = Some row /\
    mkEntry "10:00 - 11:00" "now" = make_entry (fun _ _ => ("10:00", "11:00")) row /\
    start_time row <= 100 < end_time row.
Proof.
  apply (current_slot_holds_a_running_booking
           (fun _ _ => ("10:00", "11:00")) (fun _ => 100)
           [mkBooking 1 0 59 "past" "U1"; mkBooking 2 60 179 "now" "U2"]).
  reflexivity.
Defined.

Lemma view_loop_keeps_current {E : Type} (payload : nat -> booking -> E)
  (clock : nat -> Z) (rows : list booking) :
  forall (i : nat) (v : view E) (e : E),
    current_booking v = Some e ->
    current_booking (view_loop payload clock i rows v) = Some e.
Proof.
  induction rows as [|row rest IH]; intros i v e Hv; cbn [view_loop]; [exact Hv |].
  apply IH. unfold view_step. rewrite Hv. cbn [is_none andb].
  destruct (is_none (first_coming_booking v));
    [| destruct (is_none (second_coming_booking v))]; cbn [current_booking]; auto.
Qed.

Lemma sorted_head_is_least (rows : list booking) (h b : booking) (t : list booking) :
  order_by_start_time rows = h :: t -> In b rows ->
  In h rows /\ start_time h <= start_time b.
Proof.
  intros E Hb.
  assert (In h rows) as Hh by (apply in_order_by_start_time; rewrite E; now left).
  split; [exact Hh |].
  pose proof (order_by_start_time_sorted rows) as Hs. rewrite E in Hs.
  apply in_order_by_start_time in Hb. rewrite E in Hb.
  inversion_clear Hs as [|? ? _ Hall]. destruct Hb as [<- | Hb]; [lia |].
  rewrite Forall_forall in Hall. now apply Hall.
Qed.

(** X11. One round of the screen loop on a table with unique ids and no
    two overlapping bookings, the clock standing still at [now]: a
    booking of the table that is running (start_time <= now < end_time,
    today) is sent as the current booking, provided no booking of the
    table ends on the very second it starts. *)
Theorem running_booking_is_current
  (hour_minute : Z -> string) (now today_end : Z) (db : database) (b : booking) :
  NoDup (map id db) -> pairwise_disjoint db ->
  In b db -> start_time b <= now < end_time b -> now <= today_end ->
  (forall row, In row db -> end_time row <> start_time b) ->
  current_booking
    (websocket_update hour_minute now today_end (fun _ => now) db)
  = Some (make_entry (get_readable_start_end_time hour_minute) b).
Proof.
  intros Hnd Hdis Hb Hrun Hday Htouch.
  unfold websocket_update, get_current_three_bookings. cbv zeta.
  set (cond := fun row : booking =>
                 (end_time row >=? now) && (start_time row <=? today_end)).
  assert (forall row, In row (select_where cond db) <->
            In row db /\ end_time row >= now /\ start_time row <= today_end) as Hsel.
  { intros row. unfold select_where, cond.
    rewrite filter_In, andb_true_iff, Z.geb_leb, !Z.leb_le. intuition lia. }
  assert (In b (select_where cond db)) as Hbsel by (apply Hsel; repeat split; auto; lia).
  destruct (order_by_start_time (select_where cond db)) as [|h t] eqn:E.
  { apply in_order_by_start_time in Hbsel. rewrite E in Hbsel. destruct Hbsel. }
  destruct (sorted_head_is_least _ h b t E Hbsel) as [Hh Hle].
  apply Hsel in Hh. destruct Hh as (Hhdb & Hhend & _).
  assert (h = b) as ->.
  { apply (unique_id_same_row db); auto.
    destruct (Z.eq_dec (id h) (id b)) as [Heq | Hne]; [exact Heq | exfalso].
    apply (Hdis h b Hhdb Hb Hne).
    pose proof (Htouch h Hhdb). lia. }
  cbn [firstn]. unfold bookings_to_view_json, fill_view.
  cbn [view_loop]. apply view_loop_keeps_current.
  unfold view_step. cbn [current_booking is_none andb].
  replace (in_range now (start_time b) (end_time b)) with true
    by (symmetry; apply in_range_spec; lia).
  reflexivity.
Qed.

(** An instance of [running_booking_is_current]: the second of three
    bookings is running. *)
Lemma running_booking_is_current_witness :
  current_booking
    (websocket_update (fun _ => "10:00") 4000 86399 (fun _ => 4000)
       [mkBooking 1 0 3599 "dailies" "U1"; mkBooking 2 3600 5399 "grade" "U2";
        mkBooking 3 7200 7259 "sync" "U3"])
  = Some (make_entry (get_readable_start_end_time (fun _ => "10:00"))
            (mkBooking 2 3600 5399 "grade" "U2")).
Proof.
  apply (running_booking_is_current (fun _ => "10:00") 4000 86399
           [mkBooking 1 0 3599 "dailies" "U1"; mkBooking 2 3600 5399 "grade" "U2";
            mkBooking 3 7200 7259 "sync" "U3"]
           (mkBooking 2 3600 5399 "grade" "U2")).
  - repeat constructor; simpl; intuition discriminate.
  - intros a b [<- | [<- | [<- | []]]] [<- | [<- | [<- | []]]]; simpl; lia.
  - simpl. tauto.
  - simpl. lia.
  - lia.
  - intros row [<- | [<- | [<- | []]]]; simpl; lia.
Defined.

(** ** Times shown *)

(** X12. A slot is shown from its start to the second after its
    end_time: for the dictionary [sanitize_booking_input] builds from a
    start and a number of minutes, the two strings are those of the start
    and of the start plus minutes*60; and when a booking starts on the
    second after another ends, the end shown for the first is the start
    shown for the second. *)
Theorem shown_times_round_trip (hour_minute : Z -> string) :
  (forall s d descr user,
     get_readable_start_end_time hour_minute
       (Info.start_time (sanitize_booking_input s d descr user))
       (Info.end_time (sanitize_booking_input s d descr user))
     = (hour_minute s, hour_minute (s + d * 60)))
  /\
  (forall a b : booking,
     start_time b = end_time a + 1 ->
     snd (get_readable_start_end_time hour_minute (start_time a) (end_time a))
     = fst (get_readable_start_end_time hour_minute (start_time b) (end_time b))).
Proof.
  split.
  - intros s d descr user. unfold get_readable_start_end_time.
    cbn [sanitize_booking_input Info.start_time Info.end_time].
    do 2 f_equal. lia.
  - intros a b Hadj. unfold get_readable_start_end_time. cbn [fst snd].
    now rewrite Hadj.
Qed.

(** An instance of [shown_times_round_trip], the strings being the
    decimal numerals of the instants. *)
Lemma shown_times_round_trip_witness :
  snd (get_readable_start_end_time str 3600 7199)
  = fst (get_readable_start_end_time str 7200 8999).
Proof.
  apply (proj2 (shown_times_round_trip str)
               (mkBooking 1 3600 7199 "dailies" "U1")
               (mkBooking 2 7200 8999 "grade" "U2")).
  reflexivity.
Defined.

(** ** The select menus *)

Lemma str_read_back (n : Z) :
  option_map Z.of_int (NilZero.int_of_string (str n)) = Some n.
Proof.
  unfold str. rewrite NilZero.isi.
  - cbn [option_map]. now rewrite DecimalZ.of_to.
  - destruct n; cbn [Z.to_int]; try discriminate.
    intros [= H]. now apply DecimalPos.Unsigned.to_uint_nonnil in H.
  - destruct n; cbn [Z.to_int]; try discriminate.
    intros [= H]. now apply DecimalPos.Unsigned.to_uint_nonnil in H.
Qed.

Lemma str_injective (a b : Z) : str a = str b -> a = b.
Proof.
  intros H. pose proof (str_read_back a) as Ha. rewrite H, str_read_back in Ha.
  now injection Ha.
Qed.

(** X13. [bookings_to_slack_options] gives one option per booking, in
    order, whose value is the decimal numeral of the booking's id; read
    back as a decimal numeral the value is the id, so bookings with
    different ids get different values. *)
Theorem option_values_identify_bookings
  (render : Z -> string) (bookings : list booking) :
  map option_value (bookings_to_slack_options render bookings)
  = map (fun row => str (id row)) bookings
  /\
  Forall2 (fun row option =>
             option_map Z.of_int (NilZero.int_of_string (option_value option))
             = Some (id row))
          bookings (bookings_to_slack_options render bookings)
  /\
  (NoDup (map id bookings) ->
   NoDup (map option_value (bookings_to_slack_options render bookings))).
Proof.
  assert (map option_value (bookings_to_slack_options render bookings)
          = map (fun row => str (id row)) bookings) as Hvalues.
  { unfold bookings_to_slack_options. rewrite map_map. reflexivity. }
  split; [exact Hvalues | split].
  - unfold bookings_to_slack_options. apply Forall2_map_in.
    intros row _. cbn [option_value]. apply str_read_back.
  - intros Hnd. rewrite Hvalues.
    clear Hvalues. induction bookings as [|row rest IH]; cbn [map]; [constructor |].
    cbn [map] in Hnd. inversion_clear Hnd as [|? ? Hfresh Hrest].
    constructor; [| now apply IH].
    intros Hin. apply Hfresh. apply in_map_iff in Hin.
    destruct Hin as (other & Heq & Hother).
    apply str_injective in Heq. rewrite <- Heq. now apply in_map.
Qed.

(** An instance of [option_values_identify_bookings]. *)
Lemma option_values_witness :
  NoDup (map option_value
           (bookings_to_slack_options (fun _ => "May 01: 10:00")
              [mkBooking 12 0 59 "a" "U1"; mkBooking 7 60 119 "b" "U1"])).
Proof.
  apply (option_values_identify_bookings (fun _ => "May 01: 10:00")
           [mkBooking 12 0 59 "a" "U1"; mkBooking 7 60 119 "b" "U1"]).
  repeat constructor; simpl; intuition discriminate.
Defined.

(** The option values of the same list, evaluated. *)
Example option_values_evaluated :
  map option_value
    (bookings_to_slack_options (fun _ => "May 01: 10:00")
       [mkBooking 12 0 59 "a" "U1"; mkBooking 7 60 119 "b" "U1";
        mkBooking 0 0 0 "c" "U1"; mkBooking (-3) 0 0 "d" "U1"])
  = ["12"; "7"; "0"; "-3"].
Proof. reflexivity. Qed.

Lemma in_option_values (render : Z -> string) (bookings : list booking)
  (value : string) :
  In value (map option_value (bookings_to_slack_options render bookings)) <->
  exists row, In row bookings /\ value = str (id row).
Proof.
  unfold bookings_to_slack_options. rewrite map_map, in_map_iff. cbn [option_value].
  split; intros (row & H1 & H2); exists row; auto.
Qed.

(** X14. [send_unbook_interface] and [send_extend_interface] offer a user
    only that user's own bookings that end after the clock reading: the
    values offered are exactly the numerals of the ids of those rows, the
    list is never empty, and the options are also what is left in the
    shared template; when the user has no such booking the no-bookings
    modal is opened and the template is left as it was. *)
Theorem select_menus_offer_own_bookings
  (render : Z -> string) (user : string) (now : Z) (db : database)
  (template : list slack_option) :
  ((forall row, In row db -> ~ (user_id row = user /\ end_time row > now)) ->
   send_unbook_interface render user now db template = (NoBookingsModal, template) /\
   send_extend_interface render user now db template = (NoBookingsModal, template))
  /\
  ((exists row, In row db /\ user_id row = user /\ end_time row > now) ->
   exists options,
     send_unbook_interface render user now db template
     = (UnbookingModal options, options) /\
     send_extend_interface render user now db template
     = (ExtendingModal options, options) /\
     options <> [] /\
     forall value,
       In value (map option_value options) <->
       exists row, In row db /\ user_id row = user /\ end_time row > now /\
                   value = str (id row)).
Proof.
  unfold send_unbook_interface, send_extend_interface. cbv zeta. split.
  - intros Hnone.
    destruct (get_all_future_user_bookings user now db) as [|row rest] eqn:E;
      [now split |].
    assert (In row (get_all_future_user_bookings user now db)) as Hin
      by (rewrite E; now left).
    apply in_future_listing in Hin. destruct (Hnone row); tauto.
  - intros (row & Hin & Huser & Hend).
    assert (In row (get_all_future_user_bookings user now db)) as Hlisted
      by (apply in_future_listing; auto).
    destruct (get_all_future_user_bookings user now db) as [|first rest] eqn:E;
      [destruct Hlisted |].
    exists (bookings_to_slack_options render (first :: rest)).
    repeat split; try discriminate.
    + intros Hv. apply in_option_values in Hv. destruct Hv as (r & Hr & ->).
      rewrite <- E in Hr. apply in_future_listing in Hr. exists r. tauto.
    + intros (r & Hr & Hu & He & ->). apply in_option_values. exists r.
      split; [| reflexivity]. rewrite <- E. apply in_future_listing. auto.
Qed.

(** An instance of [select_menus_offer_own_bookings]: U1 is offered the
    one booking of U1 that has not ended; U3 has none. *)
Lemma select_menus_witness :
  send_unbook_interface (fun _ => "May 01: 10:00") "U3" 100
    [mkBooking 1 0 59 "past" "U1"; mkBooking 2 60 179 "theirs" "U2";
     mkBooking 3 600 659 "mine" "U1"]
    [mkOption "left over" "2"]
  = (NoBookingsModal, [mkOption "left over" "2"])
  /\
  exists options,
    send_unbook_interface (fun _ => "May 01: 10:00") "U1" 100
      [mkBooking 1 0 59 "past" "U1"; mkBooking 2 60 179 "theirs" "U2";
       mkBooking 3 600 659 "mine" "U1"]
      [mkOption "left over" "2"]
    = (UnbookingModal options, options) /\
    forall value,
      In value (map option_value options) <->
      exists row,
        In row [mkBooking 1 0 59 "past" "U1"; mkBooking 2 60 179 "theirs" "U2";
                mkBooking 3 600 659 "mine" "U1"] /\
        user_id row = "U1" /\ end_time row > 100 /\ value = str (id row).
Proof.
  split.
  - apply (proj1 (select_menus_offer_own_bookings (fun _ => "May 01: 10:00")
                    "U3" 100
                    [mkBooking 1 0 59 "past" "U1"; mkBooking 2 60 179 "theirs" "U2";
                     mkBooking 3 600 659 "mine" "U1"]
                    [mkOption "left over" "2"])).
    intros row [<- | [<- | [<- | []]]] [Hu _]; discriminate.
  - destruct (proj2 (select_menus_offer_own_bookings (fun _ => "May 01: 10:00")
                       "U1" 100
                       [mkBooking 1 0 59 "past" "U1"; mkBooking 2 60 179 "theirs" "U2";
                        mkBooking 3 600 659 "mine" "U1"]
                       [mkOption "left over" "2"]))
      as (options & Hu & _ & _ & Hvalues).
    + exists (mkBooking 3 600 659 "mine" "U1"). simpl. split; [tauto | split; [reflexivity | lia]].
    + exists options. split; [exact Hu | exact Hvalues].
Defined.

(** ** The bookings list *)

Lemma section_texts_app (l1 l2 : list block) :
  section_texts (l1 ++ l2) = section_texts l1 ++ section_texts l2.
Proof. unfold section_texts. apply flat_map_app. Qed.

Lemma header_texts_app (l1 l2 : list block) :
  header_texts (l1 ++ l2) = header_texts l1 ++ header_texts l2.
Proof. unfold header_texts. apply flat_map_app. Qed.

Lemma count_dividers_app (l1 l2 : list block) :
  count_dividers (l1 ++ l2) = (count_dividers l1 + count_dividers l2)%nat.
Proof. unfold count_dividers. now rewrite filter_app, length_app. Qed.

Lemma slack_list_loop_sections (hour_minute month_day : Z -> string)
  (rows : list booking) :
  forall (last_date : option string) (blocks : list block),
    section_texts (slack_list_loop hour_minute month_day rows last_date blocks)
    = section_texts blocks ++
      map (fun row =>
             String.append (hour_minute (start_time row))
               (String.append "-"
                  (String.append (hour_minute (end_time row + 1))
                     (String.append ": " (description row)))))
          rows.
Proof.
  induction rows as [|row rest IH]; intros last_date blocks;
    cbn [slack_list_loop map].
  - now rewrite app_nil_r.
  - cbv zeta. rewrite IH. rewrite section_texts_app.
    cbn [section_texts flat_map app get_readable_start_end_time fst snd].
    rewrite <- app_assoc. cbn [app]. f_equal.
    destruct last_date as [d|]; [destruct (negb _) |];
      rewrite ?section_texts_app; cbn [section_texts flat_map app];
      now rewrite ?app_nil_r.
Qed.

Lemma slack_list_loop_headers (hour_minute month_day : Z -> string)
  (rows : list booking) :
  forall (last_date : option string) (blocks : list block),
    header_texts (slack_list_loop hour_minute month_day rows last_date blocks)
    = header_texts blocks ++
      collapse_runs last_date (map (fun row => month_day (start_time row)) rows).
Proof.
  induction rows as [|row rest IH]; intros last_date blocks;
    cbn [slack_list_loop map collapse_runs].
  - now rewrite app_nil_r.
  - cbv zeta. rewrite IH. rewrite header_texts_app.
    cbn [header_texts flat_map app]. rewrite app_nil_r.
    destruct last_date as [d|].
    + destruct (String.eqb_spec (month_day (start_time row)) d) as [Heq | Hne];
        cbn [negb].
      * now rewrite Heq.
      * rewrite !header_texts_app. cbn [header_texts flat_map app].
        now rewrite app_nil_r, <- app_assoc.
    + rewrite header_texts_app. cbn [header_texts flat_map app].
      now rewrite <- app_assoc.
Qed.

Lemma slack_list_loop_dividers (hour_minute month_day : Z -> string)
  (rows : list booking) :
  forall (d : string) (blocks : list block),
    count_dividers (slack_list_loop hour_minute month_day rows (Some d) blocks)
    = (count_dividers blocks +
       List.length
         (collapse_runs (Some d)
            (map (fun row => month_day (start_time row)) rows)))%nat.
Proof.
  induction rows as [|row rest IH]; intros d blocks;
    cbn [slack_list_loop map collapse_runs].
  - cbn [List.length]. lia.
  - cbv zeta.
    destruct (String.eqb_spec (month_day (start_time row)) d) as [Heq | Hne];
      cbn [negb]; rewrite IH, !count_dividers_app; cbn.
    + rewrite Heq. lia.
    + lia.
Qed.

Lemma dividers_announce_headers_app (l1 l2 : list block) :
  dividers_announce_headers l1 -> dividers_announce_headers l2 ->
  dividers_announce_headers (l1 ++ l2).
Proof.
  intros H1 H2 before after Heq.
  apply app_eq_app in Heq. destruct Heq as (l & [[-> Hl] | [-> Hl]]).
  - destruct l as [|x l].
    + cbn [app] in Hl. apply (H2 [] after). now rewrite <- Hl.
    + cbn [app] in Hl. injection Hl as <- ->.
      destruct (H1 before l eq_refl) as (d & rest & ->).
      exists d, (rest ++ l2). reflexivity.
  - apply (H2 l after Hl).
Qed.

Lemma dividers_announce_headers_nil : dividers_announce_headers [].
Proof. intros [|x before] after H; discriminate. Qed.

Lemma dividers_announce_headers_section (t : string) :
  dividers_announce_headers [SectionBlock t].
Proof. intros [|x [|y before]] after H; discriminate. Qed.

Lemma dividers_announce_headers_header (d : string) :
  dividers_announce_headers [Header d].
Proof. intros [|x [|y before]] after H; discriminate. Qed.

Lemma dividers_announce_headers_divider (d : string) :
  dividers_announce_headers [Divider; Header d].
Proof.
  intros [|x [|y [|z before]]] after H; try discriminate.
  injection H as <-. now exists d, [].
Qed.

Lemma slack_list_loop_dividers_announce (hour_minute month_day : Z -> string)
  (rows : list booking) :
  forall (last_date : option string) (blocks : list block),
    dividers_announce_headers blocks ->
    dividers_announce_headers
      (slack_list_loop hour_minute month_day rows last_date blocks).
Proof.
  induction rows as [|row rest IH]; intros last_date blocks Hb;
    cbn [slack_list_loop]; [exact Hb |].
  cbv zeta. apply IH.
  apply dividers_announce_headers_app; [| apply dividers_announce_headers_section].
  destruct last_date as [d|].
  - destruct (negb _); [| exact Hb].
    rewrite <- app_assoc. cbn [app].
    apply dividers_announce_headers_app;
      [exact Hb | apply dividers_announce_headers_divider].
  - apply dividers_announce_headers_app;
      [exact Hb | apply dividers_announce_headers_header].
Qed.

Lemma slack_list_loop_extends (hour_minute month_day : Z -> string)
  (rows : list booking) :
  forall (last_date : option string) (blocks : list block),
    exists added,
      slack_list_loop hour_minute month_day rows last_date blocks = blocks ++ added.
Proof.
  induction rows as [|row rest IH]; intros last_date blocks; cbn [slack_list_loop].
  - exists []. now rewrite app_nil_r.
  - cbv zeta.
    match goal with
    | |- exists added, slack_list_loop _ _ _ ?l ?b = _ =>
        destruct (IH l b) as (added & ->)
    end.
    destruct last_date as [d|]; [destruct (negb _) |];
      rewrite <- ?app_assoc; eexists; reflexivity.
Qed.

Lemma collapse_runs_no_repeat (dates : list string) :
  forall last_date,
    (forall l h t, last_date = Some l ->
       collapse_runs last_date dates = h :: t -> h <> l) /\
    (forall before d1 d2 after,
       collapse_runs last_date dates = before ++ d1 :: d2 :: after -> d1 <> d2).
Proof.
  induction dates as [|d rest IH]; intros last_date; cbn [collapse_runs].
  - split; [discriminate |]. intros [|x before]; discriminate.
  - destruct (IH (Some d)) as [IHhead IHadj].
    assert (forall before d1 d2 after,
              d :: collapse_runs (Some d) rest = before ++ d1 :: d2 :: after ->
              d1 <> d2) as Hcons.
    { intros [|x before] d1 d2 after Heq; cbn [app] in Heq.
      - injection Heq as Hd Hrest. subst d1. apply not_eq_sym.
        now apply (IHhead d d2 after eq_refl).
      - injection Heq as _ Hrest. now apply (IHadj before d1 d2 after). }
    destruct last_date as [l|].
    + destruct (String.eqb_spec d l) as [Heq | Hne].
      * subst l. split; [| exact IHadj].
        intros l h t [= <-]. now apply IHhead.
      * split; [| exact Hcons].
        intros l' h t [= <-] [= <- _]. exact Hne.
    + split; [discriminate | exact Hcons].
Qed.

(** X15. The blocks [bookings_to_slack_list] builds: the sections are
    the bookings in order, each with the text start-end: description, the
    end shown being the second after end_time; the headers are the dates
    of the bookings with each run of consecutive equal dates collapsed to
    one, so two successive headers never carry the same date; a
    non-empty list starts with the header of its first booking and has
    one divider less than headers; and every divider is directly followed
    by a header. *)
Theorem bookings_list_shape
  (hour_minute month_day : Z -> string) (bookings : list booking) :
  section_texts (bookings_to_slack_list hour_minute month_day bookings)
  = map (fun row =>
           String.append (hour_minute (start_time row))
             (String.append "-"
                (String.append (hour_minute (end_time row + 1))
                   (String.append ": " (description row)))))
        bookings
  /\
  header_texts (bookings_to_slack_list hour_minute month_day bookings)
  = collapse_runs None (map (fun row => month_day (start_time row)) bookings)
  /\
  (forall before d1 d2 after,
     header_texts (bookings_to_slack_list hour_minute month_day bookings)
     = before ++ d1 :: d2 :: after -> d1 <> d2)
  /\
  (forall first rest, bookings = first :: rest ->
     (exists more,
        bookings_to_slack_list hour_minute month_day bookings
        = Header (month_day (start_time first)) :: more) /\
     List.length (header_texts (bookings_to_slack_list hour_minute month_day bookings))
     = S (count_dividers (bookings_to_slack_list hour_minute month_day bookings)))
  /\
  dividers_announce_headers (bookings_to_slack_list hour_minute month_day bookings).
Proof.
  unfold bookings_to_slack_list.
  assert (header_texts (slack_list_loop hour_minute month_day bookings None [])
          = collapse_runs None (map (fun row => month_day (start_time row)) bookings))
    as Hheaders by (now rewrite slack_list_loop_headers).
  split; [now rewrite slack_list_loop_sections |].
  split; [exact Hheaders |].
  split; [| split].
  - intros before d1 d2 after. rewrite Hheaders.
    apply (proj2 (collapse_runs_no_repeat _ None)).
  - intros first rest ->. split.
    + cbn [slack_list_loop]. cbv zeta. cbn [app].
      match goal with
      | |- exists more, slack_list_loop _ _ _ ?l ?b = _ =>
          destruct (slack_list_loop_extends hour_minute month_day rest l b)
            as (added & ->)
      end.
      cbn [app]. eexists. reflexivity.
    + rewrite Hheaders. cbn [slack_list_loop map collapse_runs]. cbv zeta.
      rewrite slack_list_loop_dividers. cbn [app List.length]. reflexivity.
  - apply slack_list_loop_dividers_announce. apply dividers_announce_headers_nil.
Qed.

(** An instance of [bookings_list_shape], the date of an instant being
    the numeral of its day number. *)
Lemma bookings_list_shape_witness :
  bookings_to_slack_list str (fun t => str (t / 86400))
    [mkBooking 1 3600 7199 "dailies" "U1"; mkBooking 2 7200 8999 "grade" "U2";
     mkBooking 3 90000 93599 "review" "U1"]
  = [Header "0"; SectionBlock "3600-7200: dailies";
     SectionBlock "7200-9000: grade";
     Divider; Header "1"; SectionBlock "90000-93600: review"]
  /\
  List.length
    (header_texts
       (bookings_to_slack_list str (fun t => str (t / 86400))
          [mkBooking 1 3600 7199 "dailies" "U1"; mkBooking 2 7200 8999 "grade" "U2";
           mkBooking 3 90000 93599 "review" "U1"]))
  = S (count_dividers
         (bookings_to_slack_list str (fun t => str (t / 86400))
            [mkBooking 1 3600 7199 "dailies" "U1"; mkBooking 2 7200 8999 "grade" "U2";
             mkBooking 3 90000 93599 "review" "U1"])).
Proof.
  split; [reflexivity |].
  apply (proj1 (proj2 (proj2 (proj2
           (bookings_list_shape str (fun t => str (t / 86400))
              [mkBooking 1 3600 7199 "dailies" "U1";
               mkBooking 2 7200 8999 "grade" "U2";
               mkBooking 3 90000 93599 "review" "U1"]))))
           (mkBooking 1 3600 7199 "dailies" "U1")
           [mkBooking 2 7200 8999 "grade" "U2";
            mkBooking 3 90000 93599 "review" "U1"] eq_refl).
Defined.

(** X16. The bookings list modal: [get_coming_week_bookings] returns the
    rows whose start_time lies between the two timestamps, bounds
    included, each as often as the table has it, in ascending order of
    start_time, whoever owns them and whether or not they have ended;
    [send_bookings_list_interface] opens the list modal whose sections
    are these rows in that order. *)
Theorem coming_week_list
  (hour_minute month_day : Z -> string) (today_start one_week_later : Z)
  (db : database) :
  (forall row,
     In row (get_coming_week_bookings today_start one_week_later db) <->
     In row db /\ today_start <= start_time row <= one_week_later) /\
  Permutation
    (filter (fun row => (today_start <=? start_time row)
                        && (start_time row <=? one_week_later)) db)
    (get_coming_week_bookings today_start one_week_later db) /\
  StronglySorted (fun a b => start_time a <= start_time b)
                 (get_coming_week_bookings today_start one_week_later db) /\
  exists blocks,
    send_bookings_list_interface hour_minute month_day today_start one_week_later db
    = BookingsListModal blocks /\
    section_texts blocks
    = map (fun row =>
             String.append (hour_minute (start_time row))
               (String.append "-"
                  (String.append (hour_minute (end_time row + 1))
                     (String.append ": " (description row)))))
          (get_coming_week_bookings today_start one_week_later db).
Proof.
  split; [| split; [| split]].
  - intros row. unfold get_coming_week_bookings, select_where.
    rewrite in_order_by_start_time, filter_In, andb_true_iff.
    rewrite Z.geb_leb, !Z.leb_le. tauto.
  - unfold get_coming_week_bookings, select_where.
    erewrite filter_ext; [apply order_by_start_time_permutation |].
    intros row. cbv beta. now rewrite Z.geb_leb.
  - apply order_by_start_time_sorted.
  - unfold send_bookings_list_interface. cbv zeta. eexists. split; [reflexivity |].
    unfold bookings_to_slack_list. now rewrite slack_list_loop_sections.
Qed.

(** The list modal of a table, evaluated: the booking that started before
    the first timestamp is left out, the one that has ended is listed. *)
Example coming_week_list_evaluated :
  send_bookings_list_interface str (fun t => str (t / 86400)) 86400 691200
    [mkBooking 1 86000 86999 "running over midnight" "U1";
     mkBooking 2 172800 172859 "later" "U2";
     mkBooking 3 86400 86459 "ended" "U3"]
  = BookingsListModal
      [Header "1"; SectionBlock "86400-86460: ended";
       Divider; Header "2"; SectionBlock "172800-172860: later"].
Proof. reflexivity. Qed.

(** ** The command *)

Lemma prefix_append (a b rest : string) :
  String.prefix (String.append a b) (String.append a rest) = String.prefix b rest.
Proof.
  induction a as [|c a IH]; cbn [String.append String.prefix]; [reflexivity |].
  destruct (Ascii.ascii_dec c c) as [_ | Hne]; [exact IH | now destruct Hne].
Qed.

Lemma prefix_append_self (a rest : string) :
  String.prefix a (String.append a rest) = true.
Proof.
  induction a as [|c a IH]; cbn [String.append String.prefix].
  - now destruct rest.
  - destruct (Ascii.ascii_dec c c) as [_ | Hne]; [exact IH | now destruct Hne].
Qed.

Lemma prefix_head_differs (a b : Ascii.ascii) (s1 s2 : string) :
  a <> b -> String.prefix (String a s1) (String b s2) = false.
Proof.
  intros Hne. cbn [String.prefix].
  destruct (Ascii.ascii_dec a b) as [Heq | _]; [now destruct Hne | reflexivity].
Qed.

(** X17. [viewing_command] looks at how the text after the command
    begins: bookings... sends the list; any other text beginning with
    book opens the booking modal; unbook... and extend... send the select
    menus of the user; anything else does nothing. The test for bookings
    comes before the test for book, which it would otherwise never
    pass. *)
Theorem command_dispatch (user : string) :
  (forall rest, viewing_command (String.append "bookings" rest) user
                = SendBookingsListInterface) /\
  (forall rest, viewing_command (String.append "book" rest) user
                = if String.prefix "ings" rest
                  then SendBookingsListInterface else OpenBookingModal) /\
  (forall rest, viewing_command (String.append "unbook" rest) user
                = SendUnbookInterface user) /\
  (forall rest, viewing_command (String.append "extend" rest) user
                = SendExtendInterface user) /\
  (forall text,
     String.prefix "book" text = false -> String.prefix "unbook" text = false ->
     String.prefix "extend" text = false ->
     viewing_command text user = NoAction).
Proof.
  assert (forall rest, String.prefix "bookings" (String.append "unbook" rest) = false
                       /\ String.prefix "book" (String.append "unbook" rest) = false)
    as Hunbook.
  { intros rest. split; apply prefix_head_differs; discriminate. }
  assert (forall rest, String.prefix "bookings" (String.append "extend" rest) = false
                       /\ String.prefix "book" (String.append "extend" rest) = false
                       /\ String.prefix "unbook" (String.append "extend" rest) = false)
    as Hextend.
  { intros rest. repeat split; apply prefix_head_differs; discriminate. }
  repeat split.
  - intros rest. unfold viewing_command. now rewrite prefix_append_self.
  - intros rest. unfold viewing_command.
    change "bookings" with (String.append "book" "ings").
    now rewrite prefix_append, prefix_append_self.
  - intros rest. unfold viewing_command.
    destruct (Hunbook rest) as [-> ->]. now rewrite prefix_append_self.
  - intros rest. unfold viewing_command.
    destruct (Hextend rest) as (-> & -> & ->). now rewrite prefix_append_self.
  - intros text Hbook Hunbook' Hextend'. unfold viewing_command.
    rewrite Hbook, Hunbook', Hextend'.
    destruct (String.prefix "bookings" text) eqn:E; [| reflexivity].
    exfalso. apply prefix_correct in E. cbn [String.length] in E.
    assert (String.prefix "book" text = true) as Hb; [| congruence].
    apply prefix_correct. cbn [String.length].
    destruct text as [|c1 [|c2 [|c3 [|c4 text]]]]; try discriminate.
    cbn in E |- *. injection E as -> -> -> -> _. now destruct text.
Qed.

(** An instance of [command_dispatch]: texts that begin with none of the
    words, and the texts bookmark and bookings today. *)
Lemma command_dispatch_witness :
  viewing_command "help" "U1" = NoAction /\
  viewing_command " book" "U1" = NoAction /\
  viewing_command "bookmark" "U1" = OpenBookingModal /\
  viewing_command "bookings today" "U1" = SendBookingsListInterface.
Proof.
  destruct (command_dispatch "U1") as (Hlist & Hbook & _ & _ & Hnone).
  split; [| split; [| split]].
  - apply Hnone; reflexivity.
  - apply Hnone; reflexivity.
  - exact (Hbook "mark").
  - exact (Hlist " today").
Defined.

(** ** What the invariants mean for the room *)

Lemma table_after_unique_ids (op : operation) (db : database) :
  NoDup (map id db) -> NoDup (map id (table_after op db)).
Proof.
  intros Hnd.
  destruct (table_after_cases op db) as [-> | Happ]; [exact Hnd |].
  destruct op as [info | user i m | user i]; cbn [table_after apply_operation] in *.
  - destruct (add_booking info db) as [[|e] db1] eqn:E; [| discriminate].
    cbn [snd]. apply add_booking_returned in E. destruct E as [-> _].
    now apply insert_booking_unique_ids.
  - destruct (response (process_extending user i m db)) eqn:Hack; [| discriminate].
    destruct (process_extending_ack _ _ _ _ Hack) as (found & _ & _ & _ & -> & _).
    cbn [store]. now rewrite update_end_time_ids.
  - cbn [process_unbooking store]. now apply delete_by_id_unique_ids.
Qed.

Lemma table_after_slots_nonempty (op : operation) (db : database) :
  keeps_slots_nonempty op -> NoDup (map id db) ->
  slots_nonempty db -> slots_nonempty (table_after op db).
Proof.
  intros Hop Hnd Hdb.
  destruct (table_after_cases op db) as [-> | Happ]; [exact Hdb |].
  destruct op as [info | user i m | user i];
    cbn [table_after apply_operation keeps_slots_nonempty] in *.
  - destruct (add_booking info db) as [[|e] db1] eqn:E; [| discriminate].
    cbn [snd]. apply add_booking_returned in E. destruct E as [-> _].
    intros row Hrow. unfold insert_booking in Hrow.
    apply in_app_iff in Hrow. destruct Hrow as [Hrow | [<- | []]]; auto.
  - destruct (response (process_extending user i m db)) eqn:Hack; [| discriminate].
    destruct (process_extending_ack _ _ _ _ Hack) as (found & Hin & <- & _ & -> & _).
    cbn [store]. intros row' Hrow. apply in_update_end_time in Hrow.
    destruct Hrow as (row & Hrow & [[_ ->] | [Hid ->]]); auto.
    assert (row = found) as -> by (eapply unique_id_same_row; eauto).
    cbn [set_end_time start_time end_time].
    pose proof (Hdb found Hin). lia.
  - intros row Hrow. cbn [process_unbooking store] in Hrow.
    apply in_delete_by_id in Hrow. apply Hdb. tauto.
Qed.

(** X18. Every booking keeps starting before it ends: on a table with
    unique ids in which every row starts before it ends, any sequence of
    submissions, accepted or refused, in which every create asks for a
    slot that starts before it ends and every extend adds no less than
    zero minutes leaves a table in which every row starts before it ends.
    A create built by [sanitize_booking_input] from one minute or more is
    such a create. *)
Theorem slots_stay_nonempty (ops : list operation) (db : database) :
  Forall keeps_slots_nonempty ops ->
  NoDup (map id db) -> slots_nonempty db ->
  slots_nonempty (table_after_all ops db) /\
  (forall s d descr user, 1 <= d ->
     keeps_slots_nonempty (Create (sanitize_booking_input s d descr user))).
Proof.
  intros Hops Hnd Hdb. split.
  - unfold table_after_all. revert db Hnd Hdb.
    induction Hops as [|op ops Hop _ IH]; intros db Hnd Hdb; cbn [fold_left];
      [exact Hdb |].
    apply IH; [now apply table_after_unique_ids |
               now apply table_after_slots_nonempty].
  - intros s d descr user Hd. cbn. lia.
Qed.

(** An instance of [slots_stay_nonempty]. *)
Lemma slots_stay_nonempty_witness :
  slots_nonempty
    (table_after_all
       [Create (sanitize_booking_input 240 1 "grade" "U3");
        Extend "U1" 5 0;
        Extend "U3" 8 2;
        Cancel "U2" 7]
       [mkBooking 5 0 119 "dailies" "U1"; mkBooking 7 120 239 "review" "U2"]).
Proof.
  apply (slots_stay_nonempty
           [Create (sanitize_booking_input 240 1 "grade" "U3");
            Extend "U1" 5 0;
            Extend "U3" 8 2;
            Cancel "U2" 7]
           [mkBooking 5 0 119 "dailies" "U1"; mkBooking 7 120 239 "review" "U2"]).
  - repeat constructor; cbn; lia.
  - repeat constructor; simpl; intuition discriminate.
  - intros row [<- | [<- | []]]; simpl; lia.
Defined.

Lemma table_after_whole_minutes (op : operation) (db : database) :
  on_whole_minutes op -> rows_on_whole_minutes db ->
  rows_on_whole_minutes (table_after op db).
Proof.
  intros Hop Hdb.
  destruct (table_after_cases op db) as [-> | Happ]; [exact Hdb |].
  exact (apply_operation_whole_minutes op db _ Happ Hop Hdb).
Qed.

(** X19. On whole minutes the room is never double-booked: after any
    sequence of submissions, accepted or refused, in which every create
    is on whole minutes, on a table with unique ids, no two overlapping
    bookings and every row on whole minutes (the empty table in
    particular), at no second do two different bookings hold the room,
    the first and the last second of a slot included. *)
Theorem no_second_is_double_booked
  (ops : list operation) (db : database) (second : Z) (a b : booking) :
  Forall on_whole_minutes ops ->
  NoDup (map id db) -> pairwise_disjoint db -> rows_on_whole_minutes db ->
  In a (table_after_all ops db) -> In b (table_after_all ops db) ->
  holds_room a second -> holds_room b second -> a = b.
Proof.
  intros Hops Hnd Hdis Hwm Ha Hb Hra Hrb.
  assert (NoDup (map id (table_after_all ops db)) /\
          pairwise_disjoint (table_after_all ops db) /\
          rows_on_whole_minutes (table_after_all ops db)) as (Hnd' & Hdis' & Hwm').
  { clear Ha Hb. unfold table_after_all. revert db Hnd Hdis Hwm.
    induction Hops as [|op ops Hop _ IH]; intros db Hnd Hdis Hwm; cbn [fold_left];
      [auto |].
    assert (NoDup (map id (table_after op db)) /\
            pairwise_disjoint (table_after op db)) as [Hnd1 Hdis1].
    { destruct (table_after_cases op db) as [-> | Happ]; [now split |].
      exact (apply_operation_invariant op db _ Happ (conj Hnd Hdis)). }
    apply IH; auto. now apply table_after_whole_minutes. }
  apply (unique_id_same_row _ a b Hnd' Ha Hb).
  destruct (Z.eq_dec (id a) (id b)) as [Heq | Hne]; [exact Heq | exfalso].
  destruct (Hwm' a Ha) as [Hsa Hea]. destruct (Hwm' b Hb) as [Hsb Heb].
  pose proof (whole_minutes_closed_disjoint a b Hsa Hea Hsb Heb
                (Hdis' a b Ha Hb Hne)) as Hclosed.
  unfold spec_intervals_intersect in Hclosed.
  apply negb_false_iff, orb_true_iff in Hclosed.
  rewrite Z.gtb_ltb, !Z.ltb_lt in Hclosed.
  unfold holds_room in *. lia.
Qed.

(** An instance of [no_second_is_double_booked]: starting from the empty
    table, a refused create in between, the only booking that holds the
    room at second 119, the last second of its slot. *)
Lemma no_second_is_double_booked_witness :
  table_after_all
    [Create (sanitize_booking_input 0 2 "dailies" "U1");
     Create (sanitize_booking_input 60 1 "clash" "U3");
     Create (sanitize_booking_input 120 2 "review" "U2")] []
  = [mkBooking 1 0 119 "dailies" "U1"; mkBooking 2 120 239 "review" "U2"]
  /\
  forall row,
    In row (table_after_all
              [Create (sanitize_booking_input 0 2 "dailies" "U1");
               Create (sanitize_booking_input 60 1 "clash" "U3");
               Create (sanitize_booking_input 120 2 "review" "U2")] []) ->
    holds_room row 119 -> row = mkBooking 1 0 119 "dailies" "U1".
Proof.
  split; [reflexivity |].
  intros row Hrow Hholds.
  apply (no_second_is_double_booked
           [Create (sanitize_booking_input 0 2 "dailies" "U1");
            Create (sanitize_booking_input 60 1 "clash" "U3");
            Create (sanitize_booking_input 120 2 "review" "U2")]
           [] 119 row (mkBooking 1 0 119 "dailies" "U1")).
  - repeat constructor.
  - constructor.
  - intros ? ? [].
  - intros ? [].
  - exact Hrow.
  - simpl. tauto.
  - exact Hholds.
  - unfold holds_room. simpl. lia.
Defined.
